(** * Pooled relational client ([src/db/db.py], class [DB])

    A shallow embedding of the [DB] wrapper around psycopg2's
    [ThreadedConnectionPool], and the properties of its connection
    lifecycle, transaction discipline and error propagation.

    The wrapper is written against a [Driver] interface, so that every
    theorem about it holds whatever the pool, the connections and the
    cursors do.  A reference driver ([Psycopg2]) gives concrete runs. *)

From stdpp Require Import base option list strings gmap.
From Stdlib Require Import ZArith Lia.

Local Open Scope string_scope.
Local Open Scope list_scope.

(** ** Python values, exceptions, results *)

(** The values that travel through the wrapper: configuration entries,
    statement parameters and column values. *)
Inductive PyVal :=
| VNone
| VInt (n : Z)
| VStr (s : string).

#[global] Instance PyVal_eq_dec : EqDecision PyVal.
Proof. solve_decision. Defined.

(** An exception object: its class and [str(e)].  In the model of [db.py]
    every exception derives from Python's [Exception], which is what the
    driver and the dictionary subscripts raise and what [except Exception]
    catches. *)
Record PyExn := { exn_class : string; exn_msg : string }.

#[global] Instance PyExn_eq_dec : EqDecision PyExn.
Proof. solve_decision. Defined.

(** A call either returns a value or raises. *)
Inductive result (A : Type) :=
| Return (a : A)
| Raise (e : PyExn).
Arguments Return {A} a.
Arguments Raise {A} e.

Definition raised {A} (r : result A) : option PyExn :=
  match r with Return _ => None | Raise e => Some e end.

(** A row of a [RealDictCursor]: column name to value. *)
Abbreviation Row := (gmap string PyVal).

Inductive LogLevel := INFO | ERROR.

(** ** The driver interface

    What [db.py] calls on psycopg2: the pool ([ThreadedConnectionPool],
    [getconn], [putconn], [closeall]), the connection ([cursor], [commit],
    [rollback]) and the cursor ([execute], [description], [fetchall],
    [close]).  Each call runs in the driver's world and returns or raises. *)
Class Driver (World Pool Conn Cursor : Type) := {
  (* ThreadedConnectionPool(minconn=, maxconn=, dbname=, user=, password=, host=, port=) *)
  pool_new : PyVal → PyVal → PyVal → PyVal → PyVal → PyVal → PyVal →
             World → result Pool * World;
  pool_getconn : Pool → World → result Conn * World;
  pool_putconn : Pool → Conn → World → result unit * World;
  pool_closeall : Pool → World → result unit * World;
  (* connection.cursor(cursor_factory=RealDictCursor) *)
  conn_cursor : Conn → World → result Cursor * World;
  conn_commit : Conn → World → result unit * World;
  conn_rollback : Conn → World → result unit * World;
  cursor_execute : Cursor → string → option (list PyVal) → World → result unit * World;
  (* the attribute cursor.description: None, or the tuple of columns *)
  cursor_description : Cursor → World → option (list string);
  cursor_fetchall : Cursor → World → result (list Row) * World;
  cursor_close : Cursor → World → result unit * World
}.

Section Client.
Context {World Pool Conn Cursor : Type} {drv : Driver World Pool Conn Cursor}.

(** Every driver call and every log line, in program order. *)
Inductive Event :=
| EvLog (level : LogLevel) (msg : string)
| EvPoolNew (minconn maxconn dbname user password host port : PyVal) (r : result Pool)
| EvGetconn (p : Pool) (r : result Conn)
| EvPutconn (p : Pool) (c : Conn) (r : result unit)
| EvCloseall (p : Pool) (r : result unit)
| EvCursor (c : Conn) (r : result Cursor)
| EvExecute (k : Cursor) (query : string) (params : option (list PyVal)) (r : result unit)
| EvFetchall (k : Cursor) (r : result (list Row))
| EvCommit (c : Conn) (r : result unit)
| EvRollback (c : Conn) (r : result unit)
| EvCursorClose (k : Cursor) (r : result unit).

(** The attributes of a [DB] object. *)
Record DB := {
  db_config : gmap string PyVal;
  _pool : option Pool;
  logger : string
}.

(** The state a method runs in: the object, the driver's world, and the
    events so far. *)
Record State := {
  self : DB;
  world : World;
  trace : list Event
}.

Definition M (A : Type) : Type := State → result A * State.

#[local] Instance M_ret : MRet M := λ A a st, (Return a, st).
#[local] Instance M_bind : MBind M := λ A B f m st,
  match m st with
  | (Return a, st1) => f a st1
  | (Raise e, st1) => (Raise e, st1)
  end.

Definition raise {A} (e : PyExn) : M A := λ st, (Raise e, st).

(** [try: body / except Exception as e: handler e] *)
Definition try_except {A} (body : M A) (handler : PyExn → M A) : M A := λ st,
  match body st with
  | (Return a, st1) => (Return a, st1)
  | (Raise e, st1) => handler e st1
  end.

(** [try: body / except Exception as e: handler e / else: orelse]; an
    exception of the [else] suite is not handled by the [except] clause. *)
Definition try_except_else {A B} (body : M A) (handler : PyExn → M B)
    (orelse : A → M B) : M B := λ st,
  match body st with
  | (Return a, st1) => orelse a st1
  | (Raise e, st1) => handler e st1
  end.

(** [try: body / finally: cleanup]; when the cleanup raises, its exception
    replaces the outcome of the body. *)
Definition try_finally {A} (body : M A) (cleanup : M unit) : M A := λ st,
  match body st with
  | (r, st1) =>
      match cleanup st1 with
      | (Return _, st2) => (r, st2)
      | (Raise e2, st2) => (Raise e2, st2)
      end
  end.

(** A generator-based context manager of the shape
    [x = None / try: x = acquire(); yield x / finally: if x: release(x)]
    around the body of a [with] statement.  When [acquire] raises, [x] is
    still [None] and the [finally] clause releases nothing. *)
Definition scoped {R A} (acquire : M R) (release : R → M unit)
    (body : R → M A) : M A := λ st,
  match acquire st with
  | (Raise e, st1) => (Raise e, st1)
  | (Return x, st1) => try_finally (body x) (release x) st1
  end.

(** A driver call, recorded in the trace with its outcome. *)
Definition call {A} (op : World → result A * World) (ev : result A → Event) : M A :=
  λ st,
    let '(r, w) := op (world st) in
    (r, {| self := self st; world := w; trace := trace st ++ [ev r] |}).

(** [self.logger.info(msg)] and [self.logger.error(msg)] *)
Definition log (level : LogLevel) (msg : string) : M unit := λ st,
  (Return (), {| self := self st; world := world st;
                 trace := trace st ++ [EvLog level msg] |}).

Definition AttributeError (attr : string) : PyExn :=
  {| exn_class := "AttributeError";
     exn_msg := "'NoneType' object has no attribute '" +:+ attr +:+ "'" |}.

Definition KeyError (key : string) : PyExn :=
  {| exn_class := "KeyError"; exn_msg := "'" +:+ key +:+ "'" |}.

(** [self._pool.<attr>]: an attribute of the pool; of [None] before the
    pool exists. *)
Definition self_pool (attr : string) : M Pool := λ st,
  match _pool (self st) with
  | Some p => (Return p, st)
  | None => (Raise (AttributeError attr), st)
  end.

(** [self.db_config[key]] *)
Definition subscript (cfg : gmap string PyVal) (key : string) : M PyVal :=
  match cfg !! key with
  | Some v => mret v
  | None => raise (KeyError key)
  end.

Definition set_db_config (cfg : gmap string PyVal) : M unit := λ st,
  (Return (), {| self := {| db_config := cfg; _pool := _pool (self st);
                            logger := logger (self st) |};
                 world := world st; trace := trace st |}).

Definition set_pool (p : option Pool) : M unit := λ st,
  (Return (), {| self := {| db_config := db_config (self st); _pool := p;
                            logger := logger (self st) |};
                 world := world st; trace := trace st |}).

Definition set_logger (name : string) : M unit := λ st,
  (Return (), {| self := {| db_config := db_config (self st);
                            _pool := _pool (self st); logger := name |};
                 world := world st; trace := trace st |}).

Definition get_db_config : M (gmap string PyVal) := λ st,
  (Return (db_config (self st)), st).

(** ** The methods of [DB] *)

Definition _setup_logging : M unit :=
  set_logger "DB".

Definition _initialize_connection_pool : M unit :=
  try_except
    (cfg ← get_db_config;
     let minconn := default (VInt 1) (cfg !! "minconn") in
     let maxconn := default (VInt 10) (cfg !! "maxconn") in
     dbname ← subscript cfg "dbname";
     user ← subscript cfg "user";
     password ← subscript cfg "password";
     host ← subscript cfg "host";
     port ← subscript cfg "port";
     p ← call (pool_new minconn maxconn dbname user password host port)
              (EvPoolNew minconn maxconn dbname user password host port);
     set_pool (Some p);;
     log INFO "Connection pool initialized successfully.")
    (λ e,
       log ERROR ("Failed to initialize connection pool: " +:+ exn_msg e);;
       raise e).

Definition __init__ (cfg : gmap string PyVal) : M unit :=
  set_db_config cfg;;
  set_pool None;;
  _setup_logging;;
  _initialize_connection_pool.

Definition getconn : M Conn :=
  p ← self_pool "getconn"; call (pool_getconn p) (EvGetconn p).

Definition putconn (conn : Conn) : M unit :=
  p ← self_pool "putconn"; call (pool_putconn p conn) (EvPutconn p conn).

(** [with self._get_connection() as conn: body]; psycopg2's connection
    objects are always truthy, so [if conn:] holds as soon as [getconn]
    has returned. *)
Definition _get_connection {A} (body : Conn → M A) : M A :=
  scoped getconn putconn body.

(** [with self._get_cursor(connection) as cursor: body] *)
Definition _get_cursor {A} (connection : Conn) (body : Cursor → M A) : M A :=
  scoped (call (conn_cursor connection) (EvCursor connection))
         (λ cursor, call (cursor_close cursor) (EvCursorClose cursor))
         body.

(** Truth value of [cursor.description]: [None] and the empty tuple are
    false. *)
Definition description_truthy (d : option (list string)) : bool :=
  match d with
  | Some (_ :: _) => true
  | _ => false
  end.

Definition description (cursor : Cursor) : M (option (list string)) := λ st,
  (Return (cursor_description cursor (world st)), st).

Definition execute_query (query : string) (params : option (list PyVal))
    : M (list Row) :=
  _get_connection (λ conn,
    _get_cursor conn (λ cursor,
      try_except_else
        (log INFO ("Executing query: " +:+ query);;
         call (cursor_execute cursor query params) (EvExecute cursor query params);;
         d ← description cursor;
         if description_truthy d
         then call (cursor_fetchall cursor) (EvFetchall cursor)
         else mret [])
        (λ e,
           log ERROR ("Query execution failed: " +:+ exn_msg e);;
           call (conn_rollback conn) (EvRollback conn);;
           raise e)
        (λ results,
           call (conn_commit conn) (EvCommit conn);;
           mret results))).

Definition execute_non_query (query : string) (params : option (list PyVal))
    : M unit :=
  _get_connection (λ conn,
    _get_cursor conn (λ cursor,
      try_except
        (log INFO ("Executing non-query: " +:+ query);;
         call (cursor_execute cursor query params) (EvExecute cursor query params);;
         call (conn_commit conn) (EvCommit conn))
        (λ e,
           log ERROR ("Non-query execution failed: " +:+ exn_msg e);;
           call (conn_rollback conn) (EvRollback conn);;
           raise e))).

(** [if self._pool:] a pool object is always truthy; only [None] is not. *)
Definition close : M unit := λ st,
  match _pool (self st) with
  | Some p =>
      (call (pool_closeall p) (EvCloseall p);;
       log INFO "Connection pool closed.") st
  | None => (Return (), st)
  end.

(** [DB(db_config)]: a fresh object, then [__init__]; the caller gets the
    object only when [__init__] returns. *)
Definition blank : DB := {| db_config := ∅; _pool := None; logger := "" |}.

Definition DB_new (cfg : gmap string PyVal) (w : World) : result DB * State :=
  match __init__ cfg {| self := blank; world := w; trace := [] |} with
  | (Return _, st) => (Return (self st), st)
  | (Raise e, st) => (Raise e, st)
  end.

(** ** Calls and their traces *)

(** The two entry points a caller runs statements through. *)
Inductive Request :=
| ExecuteQuery (query : string) (params : option (list PyVal))
| ExecuteNonQuery (query : string) (params : option (list PyVal)).

(** One call, as its caller sees it: what was raised, if anything. *)
Definition serve (rq : Request) (st : State) : option PyExn * State :=
  match rq with
  | ExecuteQuery query params =>
      let '(r, st1) := execute_query query params st in (raised r, st1)
  | ExecuteNonQuery query params =>
      let '(r, st1) := execute_non_query query params st in (raised r, st1)
  end.

(** Calls in sequence, the caller going on after a call that raised. *)
Definition serve_all (rqs : list Request) (st : State) : State :=
  foldl (λ st1 rq, snd (serve rq st1)) st rqs.

(** The events between two states of one run. *)
Definition new_events (st st1 : State) : list Event :=
  drop (length (trace st)) (trace st1).

Definition is_getconn (ev : Event) : bool :=
  match ev with EvGetconn _ _ => true | _ => false end.
Definition is_getconn_ok (ev : Event) : bool :=
  match ev with EvGetconn _ (Return _) => true | _ => false end.
Definition is_putconn (ev : Event) : bool :=
  match ev with EvPutconn _ _ _ => true | _ => false end.
Definition is_cursor_ok (ev : Event) : bool :=
  match ev with EvCursor _ (Return _) => true | _ => false end.
Definition is_cursor_close (ev : Event) : bool :=
  match ev with EvCursorClose _ _ => true | _ => false end.
Definition is_rollback (ev : Event) : bool :=
  match ev with EvRollback _ _ => true | _ => false end.

(** No cursor is closed after a connection went back to the pool. *)
Fixpoint closes_precede_puts (tr : list Event) : bool :=
  match tr with
  | [] => true
  | ev :: tr1 =>
      (negb (is_putconn ev) || forallb (λ ev1, negb (is_cursor_close ev1)) tr1)
      && closes_precede_puts tr1
  end.

(** The outcome of [try: ... finally: cleanup] from the outcome of the body
    and of the cleanup. *)
Definition after {A} (cleanup : result unit) (r : result A) : result A :=
  match cleanup with
  | Return _ => r
  | Raise e => Raise e
  end.

(** The runs of the two [with] blocks around a body: no pool, no
    connection, no cursor, or the body between the acquisitions and the
    releases. *)
Inductive call_path {A} (pool : option Pool)
    (body : Conn → Cursor → list Event → result A → Prop)
    : list Event → result A → Prop :=
| path_no_pool :
    pool = None →
    call_path pool body [] (Raise (AttributeError "getconn"))
| path_no_conn p e :
    pool = Some p →
    call_path pool body [EvGetconn p (Raise e)] (Raise e)
| path_no_cursor p c e rp :
    pool = Some p →
    call_path pool body
      [EvGetconn p (Return c); EvCursor c (Raise e); EvPutconn p c rp]
      (after rp (Raise e))
| path_body p c k tr r rc rp :
    pool = Some p →
    body c k tr r →
    call_path pool body
      ([EvGetconn p (Return c); EvCursor c (Return k)] ++ tr ++
       [EvCursorClose k rc; EvPutconn p c rp])
      (after rp (after rc r)).

(** The runs of the [try] statement of [execute_query]. *)
Inductive query_body (query : string) (params : option (list PyVal))
    (c : Conn) (k : Cursor) : list Event → result (list Row) → Prop :=
| query_statement_fails e rr :
    query_body query params c k
      [EvLog INFO ("Executing query: " +:+ query);
       EvExecute k query params (Raise e);
       EvLog ERROR ("Query execution failed: " +:+ exn_msg e);
       EvRollback c rr]
      (after rr (Raise e))
| query_fetch_fails u e rr :
    query_body query params c k
      [EvLog INFO ("Executing query: " +:+ query);
       EvExecute k query params (Return u);
       EvFetchall k (Raise e);
       EvLog ERROR ("Query execution failed: " +:+ exn_msg e);
       EvRollback c rr]
      (after rr (Raise e))
| query_rows u rows rc :
    query_body query params c k
      [EvLog INFO ("Executing query: " +:+ query);
       EvExecute k query params (Return u);
       EvFetchall k (Return rows);
       EvCommit c rc]
      (after rc (Return rows))
| query_no_rows u rc :
    query_body query params c k
      [EvLog INFO ("Executing query: " +:+ query);
       EvExecute k query params (Return u);
       EvCommit c rc]
      (after rc (Return [])).

(** The runs of the [try] statement of [execute_non_query]. *)
Inductive non_query_body (query : string) (params : option (list PyVal))
    (c : Conn) (k : Cursor) : list Event → result unit → Prop :=
| non_query_statement_fails e rr :
    non_query_body query params c k
      [EvLog INFO ("Executing non-query: " +:+ query);
       EvExecute k query params (Raise e);
       EvLog ERROR ("Non-query execution failed: " +:+ exn_msg e);
       EvRollback c rr]
      (after rr (Raise e))
| non_query_commit_fails u e rr :
    non_query_body query params c k
      [EvLog INFO ("Executing non-query: " +:+ query);
       EvExecute k query params (Return u);
       EvCommit c (Raise e);
       EvLog ERROR ("Non-query execution failed: " +:+ exn_msg e);
       EvRollback c rr]
      (after rr (Raise e))
| non_query_committed u v :
    non_query_body query params c k
      [EvLog INFO ("Executing non-query: " +:+ query);
       EvExecute k query params (Return u);
       EvCommit c (Return v)]
      (Return v).

(** What an event records, as a step of the driver: the call it names was
    made in the world [w], ended as the event says, and left the world [w1].
    A log line leaves the world as it is. *)
Definition event_step (ev : Event) (w w1 : World) : Prop :=
  match ev with
  | EvLog _ _ => w1 = w
  | EvPoolNew minconn maxconn dbname user password host port r =>
      pool_new minconn maxconn dbname user password host port w = (r, w1)
  | EvGetconn p r => pool_getconn p w = (r, w1)
  | EvPutconn p c r => pool_putconn p c w = (r, w1)
  | EvCloseall p r => pool_closeall p w = (r, w1)
  | EvCursor c r => conn_cursor c w = (r, w1)
  | EvExecute k query params r => cursor_execute k query params w = (r, w1)
  | EvFetchall k r => cursor_fetchall k w = (r, w1)
  | EvCommit c r => conn_commit c w = (r, w1)
  | EvRollback c r => conn_rollback c w = (r, w1)
  | EvCursorClose k r => cursor_close k w = (r, w1)
  end.

(** A list of events as a run of the driver from the world [w] to the world
    [w1]: every call was made, in this order, each in the world the one
    before it left. *)
Fixpoint driver_run (tr : list Event) (w w1 : World) : Prop :=
  match tr with
  | [] => w1 = w
  | ev :: tr1 => ∃ w0, event_step ev w w0 ∧ driver_run tr1 w0 w1
  end.

End Client.

(** ** A reference driver

    psycopg2 is an external library and is not part of the repository.
    This instance follows the bookkeeping of its
    [pool.AbstractConnectionPool] ([minconn], [maxconn], [closed], [_pool],
    [_used], [_rused], [_keys]) and the visible behaviour of its
    connections and cursors, against a server that answers statements from a
    fixed table.  Objects are numbered by their position in the world's
    tables. *)
Module Psycopg2.

(** What the server answers to one statement. *)
Inductive StmtOutcome :=
| StmtFails (e : PyExn)
| StmtNoResult
| StmtRows (columns : list string) (tuples : list (list PyVal)).

Record Server := {
  (* psycopg2.connect(dbname=, user=, password=, host=, port=) *)
  srv_connect : PyVal → PyVal → PyVal → PyVal → PyVal → option PyExn;
  srv_run : string → option (list PyVal) → StmtOutcome;
  (* COMMIT of a transaction made of the given statements *)
  srv_commit : list string → option PyExn
}.

Inductive TxStatus := IDLE | INTRANS | INERROR.

Record ConnState := {
  c_closed : bool;
  c_status : TxStatus;
  c_pending : list string
}.

Record CursorState := {
  k_conn : nat;
  k_closed : bool;
  k_result : option (list string * list (list PyVal))
}.

Record PoolState := {
  p_minconn : Z;
  p_maxconn : Z;
  p_closed : bool;
  p_pool : list nat;
  p_used : gmap nat nat;
  p_rused : gmap nat nat;
  p_keys : nat;
  p_args : PyVal * PyVal * PyVal * PyVal * PyVal
}.

Record RefWorld := {
  server : Server;
  pools : list PoolState;
  conns : list ConnState;
  cursors : list CursorState
}.

Definition PoolError (msg : string) : PyExn :=
  {| exn_class := "PoolError"; exn_msg := msg |}.
Definition InterfaceError (msg : string) : PyExn :=
  {| exn_class := "InterfaceError"; exn_msg := msg |}.
Definition ProgrammingError (msg : string) : PyExn :=
  {| exn_class := "ProgrammingError"; exn_msg := msg |}.
Definition TypeError (msg : string) : PyExn :=
  {| exn_class := "TypeError"; exn_msg := msg |}.
Definition InFailedSqlTransaction : PyExn :=
  {| exn_class := "InFailedSqlTransaction";
     exn_msg := "current transaction is aborted, commands ignored until end of transaction block" |}.

Definition with_pools (w : RefWorld) (ps : list PoolState) : RefWorld :=
  {| server := server w; pools := ps; conns := conns w; cursors := cursors w |}.
Definition with_conns (w : RefWorld) (cs : list ConnState) : RefWorld :=
  {| server := server w; pools := pools w; conns := cs; cursors := cursors w |}.
Definition with_cursors (w : RefWorld) (ks : list CursorState) : RefWorld :=
  {| server := server w; pools := pools w; conns := conns w; cursors := ks |}.

Definition fresh_conn : ConnState :=
  {| c_closed := false; c_status := IDLE; c_pending := [] |}.

(** [psycopg2.connect] with the keyword arguments of the pool: a new connection object, or the server's
    refusal. *)
Definition connect (args : PyVal * PyVal * PyVal * PyVal * PyVal)
    (w : RefWorld) : result nat * RefWorld :=
  let '(dbname, user, password, host, port) := args in
  match srv_connect (server w) dbname user password host port with
  | Some e => (Raise e, w)
  | None => (Return (length (conns w)), with_conns w (conns w ++ [fresh_conn]))
  end.

Definition conn_is_closed (w : RefWorld) (c : nat) : bool :=
  match conns w !! c with
  | Some cs => c_closed cs
  | None => true
  end.

(** [conn.close()] *)
Definition conn_close (c : nat) (w : RefWorld) : RefWorld :=
  with_conns w (alter (λ cs, {| c_closed := true; c_status := c_status cs;
                                c_pending := c_pending cs |}) c (conns w)).

Definition end_tx (c : nat) (w : RefWorld) : RefWorld :=
  with_conns w (alter (λ cs, {| c_closed := c_closed cs; c_status := IDLE;
                                c_pending := [] |}) c (conns w)).

(** [conn.rollback()] *)
Definition rollback (c : nat) (w : RefWorld) : result unit * RefWorld :=
  if conn_is_closed w c
  then (Raise (InterfaceError "connection already closed"), w)
  else (Return (), end_tx c w).

(** [conn.commit()]: a commit the server refuses ends the transaction all
    the same. *)
Definition commit (c : nat) (w : RefWorld) : result unit * RefWorld :=
  match conns w !! c with
  | Some cs =>
      if c_closed cs
      then (Raise (InterfaceError "connection already closed"), w)
      else match c_status cs with
           | INTRANS =>
               match srv_commit (server w) (c_pending cs) with
               | Some e => (Raise e, end_tx c w)
               | None => (Return (), end_tx c w)
               end
           | _ => (Return (), end_tx c w)
           end
  | None => (Raise (InterfaceError "connection already closed"), w)
  end.

(** [conn.cursor(cursor_factory=RealDictCursor)] *)
Definition cursor (c : nat) (w : RefWorld) : result nat * RefWorld :=
  if conn_is_closed w c
  then (Raise (InterfaceError "connection already closed"), w)
  else (Return (length (cursors w)),
        with_cursors w (cursors w ++
          [{| k_conn := c; k_closed := false; k_result := None |}])).

Definition set_result (k : nat)
    (r : option (list string * list (list PyVal))) (w : RefWorld) : RefWorld :=
  with_cursors w (alter (λ ks, {| k_conn := k_conn ks; k_closed := k_closed ks;
                                  k_result := r |}) k (cursors w)).

Definition set_tx (c : nat) (s : TxStatus) (pending : list string)
    (w : RefWorld) : RefWorld :=
  with_conns w (alter (λ cs, {| c_closed := c_closed cs; c_status := s;
                                c_pending := pending |}) c (conns w)).

(** [cursor.execute(query, params)] *)
Definition execute (k : nat) (query : string) (params : option (list PyVal))
    (w : RefWorld) : result unit * RefWorld :=
  match cursors w !! k with
  | Some ks =>
      match conns w !! k_conn ks with
      | Some cs =>
          if k_closed ks || c_closed cs
          then (Raise (InterfaceError "cursor already closed"), w)
          else match c_status cs with
               | INERROR => (Raise InFailedSqlTransaction, set_result k None w)
               | _ =>
                   match srv_run (server w) query params with
                   | StmtFails e =>
                       (Raise e, set_tx (k_conn ks) INERROR (c_pending cs)
                                   (set_result k None w))
                   | StmtNoResult =>
                       (Return (), set_tx (k_conn ks) INTRANS (c_pending cs ++ [query])
                                     (set_result k None w))
                   | StmtRows columns tuples =>
                       (Return (), set_tx (k_conn ks) INTRANS (c_pending cs ++ [query])
                                     (set_result k (Some (columns, tuples)) w))
                   end
               end
      | None => (Raise (InterfaceError "cursor already closed"), w)
      end
  | None => (Raise (InterfaceError "cursor already closed"), w)
  end.

(** [cursor.description] *)
Definition description_of (k : nat) (w : RefWorld) : option (list string) :=
  ks ← cursors w !! k; fst <$> k_result ks.

(** A [RealDictRow]: the values of one tuple under their column names, a
    later column of the same name overwriting an earlier one. *)
Definition real_dict_row (columns : list string) (tuple : list PyVal) : Row :=
  list_to_map (reverse (zip columns tuple)).

(** [cursor.fetchall()] *)
Definition fetchall (k : nat) (w : RefWorld) : result (list Row) * RefWorld :=
  match cursors w !! k with
  | Some ks =>
      if k_closed ks || conn_is_closed w (k_conn ks)
      then (Raise (InterfaceError "cursor already closed"), w)
      else match k_result ks with
           | None => (Raise (ProgrammingError "no results to fetch"), w)
           | Some (columns, tuples) =>
               (Return (real_dict_row columns <$> tuples),
                set_result k (Some (columns, [])) w)
           end
  | None => (Raise (InterfaceError "cursor already closed"), w)
  end.

(** [cursor.close()] *)
Definition cursor_close_ (k : nat) (w : RefWorld) : result unit * RefWorld :=
  (Return (), with_cursors w (alter (λ ks, {| k_conn := k_conn ks; k_closed := true;
                                              k_result := k_result ks |}) k (cursors w))).

(** [int(v)] on a configuration entry (numeric strings, which Python
    would parse, are left out). *)
Definition to_int (v : PyVal) : result Z :=
  match v with
  | VInt n => Return n
  | VStr _ => Raise {| exn_class := "ValueError";
                       exn_msg := "invalid literal for int() with base 10" |}
  | VNone => Raise (TypeError "int() argument must be a string, a bytes-like object or a real number, not 'NoneType'")
  end.

(** Modelled from the spec: the pool constructor is psycopg2's and absent
    from the repository; it "eagerly opens [min_connections] live
    connections and keeps them ready", one [connect] per step of
    [range(minconn)], each appended to the idle list. *)
Fixpoint connect_n (n : nat) (args : PyVal * PyVal * PyVal * PyVal * PyVal)
    (idle : list nat) (w : RefWorld) : result (list nat) * RefWorld :=
  match n with
  | O => (Return idle, w)
  | S n' =>
      match connect args w with
      | (Raise e, w1) => (Raise e, w1)
      | (Return c, w1) => connect_n n' args (idle ++ [c]) w1
      end
  end.

(** Modelled from the spec: [ThreadedConnectionPool(minconn, maxconn,
    **kwargs)], psycopg2's constructor, absent from the repository. *)
Definition new_pool (minconn maxconn dbname user password host port : PyVal)
    (w : RefWorld) : result nat * RefWorld :=
  match to_int minconn with
  | Raise e => (Raise e, w)
  | Return mn =>
      match to_int maxconn with
      | Raise e => (Raise e, w)
      | Return mx =>
          let args := (dbname, user, password, host, port) in
          match connect_n (Z.to_nat mn) args [] w with
          | (Raise e, w1) => (Raise e, w1)
          | (Return idle, w1) =>
              (Return (length (pools w1)),
               with_pools w1 (pools w1 ++
                 [{| p_minconn := mn; p_maxconn := mx; p_closed := false;
                     p_pool := idle; p_used := ∅; p_rused := ∅; p_keys := 0;
                     p_args := args |}]))
          end
      end
  end.

Definition StaleObject : PyExn :=
  {| exn_class := "ReferenceError"; exn_msg := "no such pool" |}.

Definition put_pool (p : nat) (ps : PoolState) (w : RefWorld) : RefWorld :=
  with_pools w (<[p := ps]> (pools w)).

Definition lease (ps : PoolState) (key conn : nat) (idle : list nat) : PoolState :=
  {| p_minconn := p_minconn ps; p_maxconn := p_maxconn ps; p_closed := p_closed ps;
     p_pool := idle; p_used := <[key := conn]> (p_used ps);
     p_rused := <[conn := key]> (p_rused ps); p_keys := key;
     p_args := p_args ps |}.

Definition bump_keys (ps : PoolState) (key : nat) : PoolState :=
  {| p_minconn := p_minconn ps; p_maxconn := p_maxconn ps; p_closed := p_closed ps;
     p_pool := p_pool ps; p_used := p_used ps; p_rused := p_rused ps;
     p_keys := key; p_args := p_args ps |}.

(** [pool.getconn()]: a fresh key, then the last idle connection, or a new
    one while fewer than [maxconn] are in use. *)
Definition getconn_ (p : nat) (w : RefWorld) : result nat * RefWorld :=
  match pools w !! p with
  | None => (Raise StaleObject, w)
  | Some ps =>
      if p_closed ps
      then (Raise (PoolError "connection pool is closed"), w)
      else
        let key := S (p_keys ps) in
        match p_used ps !! key with
        | Some c => (Return c, put_pool p (bump_keys ps key) w)
        | None =>
            match last (p_pool ps) with
            | Some c =>
                (Return c, put_pool p (lease ps key c (removelast (p_pool ps))) w)
            | None =>
                if decide (Z.of_nat (size (p_used ps)) = p_maxconn ps)
                then (Raise (PoolError "connection pool exhausted"),
                      put_pool p (bump_keys ps key) w)
                else
                  match connect (p_args ps) w with
                  | (Raise e, w1) => (Raise e, put_pool p (bump_keys ps key) w1)
                  | (Return c, w1) => (Return c, put_pool p (lease ps key c []) w1)
                  end
            end
        end
  end.

Definition release (ps : PoolState) (key conn : nat) (idle : list nat) : PoolState :=
  {| p_minconn := p_minconn ps; p_maxconn := p_maxconn ps; p_closed := p_closed ps;
     p_pool := idle; p_used := delete key (p_used ps);
     p_rused := delete conn (p_rused ps); p_keys := p_keys ps;
     p_args := p_args ps |}.

(** [pool.putconn(conn)]: back to the idle list while it holds fewer than
    [minconn] connections (rolled back first when a transaction is open),
    closed otherwise; then the lease is forgotten. *)
Definition putconn_ (p conn : nat) (w : RefWorld) : result unit * RefWorld :=
  match pools w !! p with
  | None => (Raise StaleObject, w)
  | Some ps =>
      if p_closed ps
      then (Raise (PoolError "connection pool is closed"), w)
      else
        match p_rused ps !! conn with
        | None => (Raise (PoolError "trying to put unkeyed connection"), w)
        | Some key =>
            if decide (Z.of_nat (length (p_pool ps)) < p_minconn ps)%Z
            then
              match conns w !! conn with
              | Some cs =>
                  if c_closed cs
                  then (Return (), put_pool p (release ps key conn (p_pool ps)) w)
                  else (Return (), put_pool p (release ps key conn (p_pool ps ++ [conn]))
                                     (end_tx conn w))
              | None => (Return (), put_pool p (release ps key conn (p_pool ps)) w)
              end
            else (Return (), put_pool p (release ps key conn (p_pool ps))
                               (conn_close conn w))
        end
  end.

(** [pool.closeall()]: refused on a pool that is already closed. *)
Definition closeall_ (p : nat) (w : RefWorld) : result unit * RefWorld :=
  match pools w !! p with
  | None => (Raise StaleObject, w)
  | Some ps =>
      if p_closed ps
      then (Raise (PoolError "connection pool is closed"), w)
      else
        let w1 := foldr conn_close w (p_pool ps ++ (map_to_list (p_used ps)).*2) in
        (Return (),
         put_pool p {| p_minconn := p_minconn ps; p_maxconn := p_maxconn ps;
                       p_closed := true; p_pool := p_pool ps; p_used := p_used ps;
                       p_rused := p_rused ps; p_keys := p_keys ps;
                       p_args := p_args ps |} w1)
  end.

(** The pool [p] is open, may hold [m] connections and has none out. *)
Definition pool_idle (p : nat) (m : Z) (w : RefWorld) : Prop :=
  ∃ ps, pools w !! p = Some ps ∧ p_closed ps = false ∧ p_maxconn ps = m ∧
        p_used ps = ∅ ∧ p_rused ps = ∅.

(** The pool [p] is open and has exactly the connection [c] out. *)
Definition pool_leased (p : nat) (m : Z) (c : nat) (w : RefWorld) : Prop :=
  ∃ ps key, pools w !! p = Some ps ∧ p_closed ps = false ∧ p_maxconn ps = m ∧
            p_used ps = {[ key := c ]} ∧ p_rused ps = {[ c := key ]}.

(** The pool [p] has been closed. *)
Definition pool_closed (p : nat) (w : RefWorld) : Prop :=
  ∃ ps, pools w !! p = Some ps ∧ p_closed ps = true.

#[export] Instance driver : Driver RefWorld nat nat nat := {|
  pool_new := new_pool;
  pool_getconn := getconn_;
  pool_putconn := putconn_;
  pool_closeall := closeall_;
  conn_cursor := cursor;
  conn_commit := commit;
  conn_rollback := rollback;
  cursor_execute := execute;
  cursor_description := description_of;
  cursor_fetchall := fetchall;
  cursor_close := cursor_close_
|}.

End Psycopg2.

(** ** A concrete database

    The configuration of the script's own example run, and a server that
    knows a handful of statements. *)
Module Scenario.
Import Psycopg2.

Definition db_config : gmap string PyVal :=
  {[ "dbname" := VStr "chinook"; "user" := VStr "postgres";
     "password" := VStr "postgres"; "host" := VStr "localhost";
     "port" := VStr "5432"; "minconn" := VInt 1; "maxconn" := VInt 5 ]}.

(** The same without [minconn] and [maxconn]. *)
Definition bare_config : gmap string PyVal :=
  {[ "dbname" := VStr "chinook"; "user" := VStr "postgres";
     "password" := VStr "postgres"; "host" := VStr "localhost";
     "port" := VStr "5432" ]}.

(** One connection at most. *)
Definition single_config : gmap string PyVal :=
  <["maxconn" := VInt 1]> db_config.

(** A wrong password. *)
Definition bad_config : gmap string PyVal :=
  <["password" := VStr "guess"]> db_config.

Definition OperationalError : PyExn :=
  {| exn_class := "OperationalError";
     exn_msg := "password authentication failed for user postgres" |}.
Definition SyntaxError : PyExn :=
  {| exn_class := "SyntaxError"; exn_msg := "syntax error at or near SELEC" |}.
Definition IntegrityError : PyExn :=
  {| exn_class := "IntegrityError";
     exn_msg := "insert on table child violates foreign key constraint" |}.

Definition select_one : string := "SELECT 1 AS x".
Definition select_nothing : string := "SELECT".
Definition insert_row : string := "INSERT INTO parent VALUES (1)".
Definition insert_orphan : string := "INSERT INTO child VALUES (7) RETURNING id".
Definition malformed : string := "SELEC 1".

(** [child] has a deferred foreign key: the orphan row is accepted by the
    statement and refused by the commit. *)
Definition chinook : Server := {|
  srv_connect := λ dbname user password host port,
    if decide (password = VStr "postgres") then None else Some OperationalError;
  srv_run := λ query params,
    if decide (query = select_one) then StmtRows ["x"] [[VInt 1]]
    else if decide (query = select_nothing) then StmtRows [] [[]]
    else if decide (query = insert_row) then StmtNoResult
    else if decide (query = insert_orphan) then StmtRows ["id"] [[VInt 7]]
    else StmtFails SyntaxError;
  srv_commit := λ statements,
    if decide (insert_orphan ∈ statements) then Some IntegrityError else None
|}.

Definition boot : RefWorld :=
  {| server := chinook; pools := []; conns := []; cursors := [] |}.

(** The state after [db = DB(cfg)], when the constructor returns. *)
Definition after_new (cfg : gmap string PyVal) : option State :=
  match DB_new cfg boot with
  | (Return _, st) => Some st
  | (Raise _, _) => None
  end.

Definition ready : State :=
  default {| self := blank; world := boot; trace := [] |} (after_new db_config).

(** A client on a pool of one connection at most. *)
Definition single : State :=
  default {| self := blank; world := boot; trace := [] |} (after_new single_config).

End Scenario.

(** ** A client closed while a call is in flight

    A [ThreadedConnectionPool] is shared between threads.  This driver is
    the reference one as a thread sees it when another thread calls [close]
    on the same client between its statement and its commit: by the time
    [commit] starts, [closeall] has run on the pool [0]. *)
Module Interleaved.
Import Psycopg2.

Definition driver : Driver RefWorld nat nat nat := {|
  pool_new := new_pool;
  pool_getconn := getconn_;
  pool_putconn := putconn_;
  pool_closeall := closeall_;
  conn_cursor := cursor;
  conn_commit := λ c w, commit c (snd (closeall_ 0 w));
  conn_rollback := rollback;
  cursor_execute := execute;
  cursor_description := description_of;
  cursor_fetchall := fetchall;
  cursor_close := cursor_close_
|}.

End Interleaved.

(** ** The example run of [db.py] and more about the calls *)
Section Script.
Context {World Pool Conn Cursor : Type} {drv : Driver World Pool Conn Cursor}.

(** The entries [_initialize_connection_pool] subscripts, in the order of
    the keyword arguments. *)
Definition connection_keys : list string :=
  ["dbname"; "user"; "password"; "host"; "port"].

Definition is_execute (ev : @Event Pool Conn Cursor) : bool :=
  match ev with EvExecute _ _ _ _ => true | _ => false end.
Definition is_fetchall (ev : @Event Pool Conn Cursor) : bool :=
  match ev with EvFetchall _ _ => true | _ => false end.
Definition is_commit (ev : @Event Pool Conn Cursor) : bool :=
  match ev with EvCommit _ _ => true | _ => false end.




End Script.

(** ** The travel assistant ([src/lg/lg.py])

    Strings are sequences of bytes; the words looked for are ASCII, so that
    looking for them in the UTF-8 bytes of an input finds what Python finds
    in its characters. *)
Module Assistant.

(** [needle in haystack] on strings *)
Fixpoint contains (needle haystack : string) : bool :=
  String.prefix needle haystack ||
  match haystack with
  | EmptyString => false
  | String _ rest => contains needle rest
  end.

Definition decide_branch (user_input : string) : string :=
  if contains "recommend" user_input then "destination"
  else if contains "book" user_input then "hotel"
  else if contains "itinerary" user_input then "itinerary"
  else "default".

(** An entry of [execution_logic]; a tool stands by its [name]. *)
Record Branch := {
  tools : list string;
  description : string
}.

Definition execution_logic : gmap string Branch :=
  {[ "default" := {| tools := [];
                     description := "Default branch for unrecognized inputs." |};
     "destination" := {| tools := ["DestinationRecommender"];
                         description := "Branch for 'recommend' inputs." |};
     "hotel" := {| tools := ["HotelBooking"];
                   description := "Branch for 'book' inputs." |};
     "itinerary" := {| tools := ["ItineraryPlanner"];
                       description := "Branch for 'itinerary' inputs." |} ]}.




(** What the console shows and what the agent is asked, in order. *)
Inductive Console :=
| Print (line : string)
| Input (prompt : string) (line : option string)
| AgentRun (user_input : string) (r : result string).


Section Chat.
Context {Agent : Type}.
(** [agent.run(user_input)]: the agent with its memory, from the framework. *)
Variable agent_run : string → Agent → result string * Agent.



End Chat.

(** The lines given to the agent, in order. *)
Definition asked (console : list Console) : list string :=
  omap (λ ev, match ev with AgentRun user_input _ => Some user_input | _ => None end)
       console.

(** The lines printed, in order. *)
Definition printed (console : list Console) : list string :=
  omap (λ ev, match ev with Print line => Some line | _ => None end) console.


(** The branches by priority. *)
Definition rank (branch : string) : nat :=
  if decide (branch = "destination") then 3
  else if decide (branch = "hotel") then 2
  else if decide (branch = "itinerary") then 1
  else 0.

(** [needle] occurs in [s]. *)
Definition occurs (needle s : string) : Prop :=
  ∃ before behind, s = before +:+ needle +:+ behind.

End Assistant.

(** ** The natural-language helper ([src/db/dbllm.py], class [DBLLM])

    What the class calls on its collaborators: the settings, the SQL
    database of the framework, the chat model and the query chain.  Each
    call runs in the collaborators' world and returns or raises. *)
Class LangChain (W Db Llm Chain Prompt : Type) := {
  (* settings.get(key): None when the key is not set *)
  settings_get : string → W → option string;
  (* SQLDatabase.from_uri(db_url) *)
  from_uri : option string → W → result Db * W;
  (* ChatGroq(temperature=0.0, model_name=..., api_key=api_key) *)
  chat_groq : option string → W → result Llm * W;
  (* ChatPromptTemplate.from_template(template) *)
  from_template : string → W → result Prompt * W;
  (* db.get_table_info() *)
  get_table_info : Db → W → result string * W;
  (* db.run(query) *)
  db_run : Db → string → W → result string * W;
  create_sql_query_chain : Llm → Db → W → result Chain * W;
  (* sql_chain.get_prompts() *)
  get_prompts : Chain → W → result (list Prompt) * W;
  (* prompt.pretty_print() *)
  pretty_print : Prompt → W → result unit * W;
  (* sql_chain.invoke({"question": question}), the dictionary by its entry *)
  invoke_question : Chain → string → W → result string * W;
  (* print(sql_chain) *)
  print_chain : Chain → W → result unit * W;
  (* db._engine.dispose() *)
  engine_dispose : Db → W → result unit * W
}.

Module DbLlm.

(** Python's built-in exception classes that do not derive from
    [Exception]. *)
Definition outside_Exception : list string :=
  ["BaseException"; "BaseExceptionGroup"; "GeneratorExit";
   "KeyboardInterrupt"; "SystemExit"].

(** [isinstance(e, Exception)], by the class of [e]. *)
Definition is_Exception (e : PyExn) : bool :=
  bool_decide (exn_class e ∉ outside_Exception).

Section Helper.
Context {W Db Llm Chain Prompt : Type} {lc : LangChain W Db Llm Chain Prompt}.

(** The calls on the collaborators, in program order, with their outcome. *)
Inductive Step :=
| FromUri (db_url : option string) (r : result Db)
| ChatGroq (api_key : option string) (r : result Llm)
| FromTemplate (template : string) (r : result Prompt)
| GetTableInfo (r : result string)
| DbRun (query : string) (r : result string)
| CreateChain (r : result Chain)
| GetPrompts (r : result (list Prompt))
| PrettyPrint (r : result unit)
| Invoke (question : string) (r : result string)
| PrintChain (r : result unit)
| Dispose (r : result unit).


(** The attributes of a [DBLLM] object. *)
Record DBLLM := {
  db : Db;
  llm : Llm;
  prompt : Prompt;
  schema : string
}.

(** A method runs in the collaborators' world and appends its steps. *)
Definition Run (A : Type) : Type := W * list Step → result A * (W * list Step).

#[local] Instance Run_ret : MRet Run := λ A a t, (Return a, t).
#[local] Instance Run_bind : MBind Run := λ A B f m t,
  match m t with
  | (Return a, t1) => f a t1
  | (Raise e, t1) => (Raise e, t1)
  end.

Definition perform {A} (op : W → result A * W) (step : result A → Step) : Run A :=
  λ t, let '(r, w) := op t.1 in (r, (w, t.2 ++ [step r])).

(** [try: body / except Exception as e: return handler e]; an exception
    that does not derive from [Exception] ([KeyboardInterrupt],
    [SystemExit]) is not caught. *)
Definition catch {A} (body : Run A) (handler : PyExn → Run A) : Run A := λ t,
  match body t with
  | (Return a, t1) => (Return a, t1)
  | (Raise e, t1) => if is_Exception e then handler e t1 else (Raise e, t1)
  end.

Definition setting (key : string) : Run (option string) := λ t,
  (Return (settings_get key t.1), t).

Definition IndexError : PyExn :=
  {| exn_class := "IndexError"; exn_msg := "list index out of range" |}.

(** [prompts[0]] *)
Definition first_of {A} (l : list A) : Run A :=
  match l with
  | x :: _ => mret x
  | [] => λ t, (Raise IndexError, t)
  end.

Definition template : string := "
        Based on the table schema below write a SQL query that would answer the user's quertion:
        {schema}
        
        Question: {question}
        SQL Query
        ".

(** [DBLLM(db_url)]; [llm_url] and [verbose] are not used. *)
Definition __init__ (db_url : option string) : Run DBLLM :=
  db_url ← match db_url with
            | None => setting "DATABASE_URL"
            | Some url => mret (Some url)
            end;
  db ← perform (from_uri db_url) (FromUri db_url);
  api_key ← setting "GROQ_API_KEY";
  llm ← perform (chat_groq api_key) (ChatGroq api_key);
  prompt ← perform (from_template template) (FromTemplate template);
  schema ← perform (get_table_info db) GetTableInfo;
  mret {| db := db; llm := llm; prompt := prompt; schema := schema |}.

Definition run_query (self : DBLLM) (query : string) : Run string :=
  catch
    (perform (db_run (db self) query) (DbRun query))
    (λ e, mret ("Error executing query: " +:+ exn_msg e)).


Definition query_with_llm (self : DBLLM) (natural_language_query : string)
    : Run string :=
  catch
    (sql_chain ← perform (create_sql_query_chain (llm self) (db self)) CreateChain;
     prompts ← perform (get_prompts sql_chain) GetPrompts;
     first ← first_of prompts;
     perform (pretty_print first) PrettyPrint;;
     response ← perform (invoke_question sql_chain natural_language_query)
                        (Invoke natural_language_query);
     perform (print_chain sql_chain) PrintChain;;
     mret response)
    (λ e, mret ("Error in LLM query: " +:+ exn_msg e)).

Definition close_connection (self : DBLLM) : Run string :=
  catch
    (perform (engine_dispose (db self)) Dispose;;
     mret "Database connection closed.")
    (λ e, mret ("Error closing connection: " +:+ exn_msg e)).

End Helper.
End DbLlm.

(** A helper for the runs: the database has lost its connection and the
    chat model is interrupted at the keyboard while it answers. *)
Module LlmScenario.

Definition KeyboardInterrupt : PyExn :=
  {| exn_class := "KeyboardInterrupt"; exn_msg := EmptyString |}.
Definition OperationalError : PyExn :=
  {| exn_class := "OperationalError";
     exn_msg := "server closed the connection unexpectedly" |}.

Definition interrupted : LangChain unit unit unit unit unit := {|
  settings_get := λ key w, None;
  from_uri := λ db_url w, (Return (), w);
  chat_groq := λ api_key w, (Return (), w);
  from_template := λ template w, (Return (), w);
  get_table_info := λ db w, (Return "customer(id, name)", w);
  db_run := λ db query w, (Raise OperationalError, w);
  create_sql_query_chain := λ llm db w, (Return (), w);
  get_prompts := λ chain w, (Return [()], w);
  pretty_print := λ prompt w, (Return (), w);
  invoke_question := λ chain question w, (Raise KeyboardInterrupt, w);
  print_chain := λ chain w, (Return (), w);
  engine_dispose := λ db w, (Return (), w)
|}.

Definition helper : @DbLlm.DBLLM unit unit unit :=
  {| DbLlm.db := (); DbLlm.llm := (); DbLlm.prompt := ();
     DbLlm.schema := "customer(id, name)" |}.

End LlmScenario.

(** ** The graph database check ([src/neo4j/db.py])

    What the script calls on the environment and on the graph driver. *)
Class GraphDb (W Drv Session : Type) := {
  load_dotenv : W → W;
  (* os.getenv(name): None when the variable is not set *)
  getenv : string → W → option string;
  (* GraphDatabase.driver(database_url, auth=(user, pwd)) *)
  graph_driver : option string → option string → option string →
                 W → result Drv * W;
  (* driver.session() *)
  driver_session : Drv → W → result Session * W;
  (* session.run(query) and the iteration over its result: the records it
     yields and the exception that ends the iteration, if one does *)
  session_run : Session → string → W → result (list Row * option PyExn) * W;
  (* the exit of [with driver.session() as session] *)
  session_close : Session → W → result unit * W;
  (* driver.close() *)
  driver_close : Drv → W → result unit * W
}.

Module Neo4jCheck.
Section CheckScript.
Context {W Drv Session : Type} {gdb : GraphDb W Drv Session}.

(** The calls on the driver and the lines printed, in program order. *)
Inductive Step :=
| OpenDriver (database_url user pwd : option string) (r : result Drv)
| OpenSession (r : result Session)
| RunQuery (query : string) (r : result (list Row * option PyExn))
| Printed (v : PyVal)
| CloseSession (r : result unit)
| CloseDriver (r : result unit).


(** The values printed, in order. *)
Definition printed (steps : list Step) : list PyVal :=
  omap (λ step, match step with Printed v => Some v | _ => None end) steps.

Definition Run (A : Type) : Type := W * list Step → result A * (W * list Step).

Definition perform {A} (op : W → result A * W) (step : result A → Step) : Run A :=
  λ t, let '(r, w) := op t.1 in (r, (w, t.2 ++ [step r])).

(** [for record in result: print(record["message"])], on the records the
    iteration yields. *)
Fixpoint print_messages (records : list Row) : Run unit := λ t,
  match records with
  | [] => (Return (), t)
  | record :: rest =>
      match record !! "message" with
      | None => (Raise (KeyError "message"), t)
      | Some v => print_messages rest (t.1, t.2 ++ [Printed v])
      end
  end.

Definition test_query : string := "RETURN 'Connection successful!' AS message".

(** [with driver.session() as session: ...]: the session is closed when the
    block is left, by its end or by an exception; an exception of the close
    replaces the outcome of the block. *)
Definition test_connection (driver : Drv) : Run unit := λ t,
  match perform (driver_session driver) OpenSession t with
  | (Raise e, t1) => (Raise e, t1)
  | (Return session, t1) =>
      let '(r, t3) :=
        match perform (session_run session test_query) (RunQuery test_query) t1 with
        | (Raise e, t2) => (Raise e, t2)
        | (Return (records, interrupted), t2) =>
            match print_messages records t2 with
            | (Raise e, t3) => (Raise e, t3)
            | (Return _, t3) =>
                match interrupted with
                | Some e => (Raise e, t3)
                | None => (Return (), t3)
                end
            end
        end in
      match perform (session_close session) CloseSession t3 with
      | (Return _, t4) => (r, t4)
      | (Raise e, t4) => (Raise e, t4)
      end
  end.

(** The script: the environment, the driver, the check, the close. *)
Definition script (w : W) : result unit * (W * list Step) :=
  let w1 := load_dotenv w in
  let database_url := getenv "DB_URI" w1 in
  let user := getenv "DB_USR" w1 in
  let pwd := getenv "DB_PWD" w1 in
  match perform (graph_driver database_url user pwd)
                (OpenDriver database_url user pwd) (w1, []) with
  | (Raise e, t1) => (Raise e, t1)
  | (Return driver, t1) =>
      match test_connection driver t1 with
      | (Raise e, t2) => (Raise e, t2)
      | (Return _, t2) => perform (driver_close driver) CloseDriver t2
      end
  end.

End CheckScript.
End Neo4jCheck.

(** A graph server for the runs.  The world is the environment; the [.env]
    file gives the variables that are not set; the server takes any
    credentials and answers the query with one record. *)
Module GraphScenario.

Definition dotenv : gmap string string :=
  {[ "DB_URI" := "bolt://localhost:7687"; "DB_USR" := "neo4j";
     "DB_PWD" := "neo4j" ]}.

Definition answer : list Row :=
  [{[ "message" := VStr "Connection successful!" ]}].

#[export] Instance server : GraphDb (gmap string string) nat nat := {|
  load_dotenv env := env ∪ dotenv;
  getenv name env := env !! name;
  graph_driver _ _ _ env := (Return 0, env);
  driver_session _ env := (Return 0, env);
  session_run _ _ env := (Return (answer, None), env);
  session_close _ env := (Return (), env);
  driver_close _ env := (Return (), env)
|}.

End GraphScenario.

(** * Properties of the client, whatever the driver *)

(** Finds an event in an explicit list. *)
Ltac present :=
  repeat first [ apply list_elem_of_here | apply list_elem_of_further ].

Section ClientFacts.
Context {World Pool Conn Cursor : Type} {drv : Driver World Pool Conn Cursor}.

#[local] Abbreviation State := (@State World Pool Conn Cursor).
#[local] Abbreviation Event := (@Event Pool Conn Cursor).

Ltac unfold_client :=
  unfold execute_query, execute_non_query, _get_connection, _get_cursor, scoped,
    try_finally, try_except_else, try_except, getconn, putconn, self_pool, call, log,
    description, raise, mbind, M_bind, mret, M_ret in *.

Ltac driver_case op :=
  match goal with
  | |- context [op ?a ?w] => destruct (op a w) as [[?|?] ?] eqn:?
  | |- context [op ?a ?b ?w] => destruct (op a b w) as [[?|?] ?] eqn:?
  | |- context [op ?a ?b ?c ?w] => destruct (op a b c w) as [[?|?] ?] eqn:?
  end.

(** One case per outcome of the next driver call, in program order. *)
Ltac step :=
  first
  [ match goal with
    | |- context [match _pool ?s with _ => _ end] => destruct (_pool s) eqn:?
    end
  | driver_case (@pool_getconn _ _ _ _ _)
  | driver_case (@conn_cursor _ _ _ _ _)
  | driver_case (@cursor_execute _ _ _ _ _)
  | match goal with
    | |- context [description_truthy ?d] => destruct (description_truthy d) eqn:?
    end
  | driver_case (@cursor_fetchall _ _ _ _ _)
  | driver_case (@conn_commit _ _ _ _ _)
  | driver_case (@conn_rollback _ _ _ _ _)
  | driver_case (@cursor_close _ _ _ _ _)
  | driver_case (@pool_putconn _ _ _ _ _) ]; simpl.

Lemma new_events_app (st : State) (w : World) (tr : list Event) :
  new_events st {| self := self st; world := w; trace := trace st ++ tr |} = tr.
Proof. unfold new_events; simpl. apply drop_app_length. Qed.

Lemma new_events_refl (st : State) : new_events st st = [].
Proof. unfold new_events. apply drop_all. Qed.

(** Puts the trace of a finished run in the shape [trace st ++ events]. *)
Ltac settle :=
  simplify_eq; rewrite <- ?app_assoc; simpl;
  rewrite ?new_events_app.

(** The paths of [call_path], with the events of the body spelled out. *)
Lemma path_query_statement_fails (p : Pool) (c : Conn) (k : Cursor) query params e rr rc rp :
  call_path (Some p) (query_body query params)
    [EvGetconn p (Return c); EvCursor c (Return k);
     EvLog INFO ("Executing query: " +:+ query);
     EvExecute k query params (Raise e);
     EvLog ERROR ("Query execution failed: " +:+ exn_msg e);
     EvRollback c rr; EvCursorClose k rc; EvPutconn p c rp]
    (after rp (after rc (after rr (Raise e)))).
Proof. exact (path_body _ _ p c k _ _ rc rp eq_refl (query_statement_fails _ _ c k e rr)). Qed.

Lemma path_query_fetch_fails (p : Pool) (c : Conn) (k : Cursor) query params u e rr rc rp :
  call_path (Some p) (query_body query params)
    [EvGetconn p (Return c); EvCursor c (Return k);
     EvLog INFO ("Executing query: " +:+ query);
     EvExecute k query params (Return u);
     EvFetchall k (Raise e);
     EvLog ERROR ("Query execution failed: " +:+ exn_msg e);
     EvRollback c rr; EvCursorClose k rc; EvPutconn p c rp]
    (after rp (after rc (after rr (Raise e)))).
Proof. exact (path_body _ _ p c k _ _ rc rp eq_refl (query_fetch_fails _ _ c k u e rr)). Qed.

Lemma path_query_rows (p : Pool) (c : Conn) (k : Cursor) query params u rows rm rc rp :
  call_path (Some p) (query_body query params)
    [EvGetconn p (Return c); EvCursor c (Return k);
     EvLog INFO ("Executing query: " +:+ query);
     EvExecute k query params (Return u);
     EvFetchall k (Return rows);
     EvCommit c rm; EvCursorClose k rc; EvPutconn p c rp]
    (after rp (after rc (after rm (Return rows)))).
Proof. exact (path_body _ _ p c k _ _ rc rp eq_refl (query_rows _ _ c k u rows rm)). Qed.

Lemma path_query_no_rows (p : Pool) (c : Conn) (k : Cursor) query params u rm rc rp :
  call_path (Some p) (query_body query params)
    [EvGetconn p (Return c); EvCursor c (Return k);
     EvLog INFO ("Executing query: " +:+ query);
     EvExecute k query params (Return u);
     EvCommit c rm; EvCursorClose k rc; EvPutconn p c rp]
    (after rp (after rc (after rm (Return [])))).
Proof. exact (path_body _ _ p c k _ _ rc rp eq_refl (query_no_rows _ _ c k u rm)). Qed.

Lemma path_non_query_statement_fails (p : Pool) (c : Conn) (k : Cursor) query params e rr rc rp :
  call_path (Some p) (non_query_body query params)
    [EvGetconn p (Return c); EvCursor c (Return k);
     EvLog INFO ("Executing non-query: " +:+ query);
     EvExecute k query params (Raise e);
     EvLog ERROR ("Non-query execution failed: " +:+ exn_msg e);
     EvRollback c rr; EvCursorClose k rc; EvPutconn p c rp]
    (after rp (after rc (after rr (Raise e)))).
Proof. exact (path_body _ _ p c k _ _ rc rp eq_refl (non_query_statement_fails _ _ c k e rr)). Qed.

Lemma path_non_query_commit_fails (p : Pool) (c : Conn) (k : Cursor) query params u e rr rc rp :
  call_path (Some p) (non_query_body query params)
    [EvGetconn p (Return c); EvCursor c (Return k);
     EvLog INFO ("Executing non-query: " +:+ query);
     EvExecute k query params (Return u);
     EvCommit c (Raise e);
     EvLog ERROR ("Non-query execution failed: " +:+ exn_msg e);
     EvRollback c rr; EvCursorClose k rc; EvPutconn p c rp]
    (after rp (after rc (after rr (Raise e)))).
Proof. exact (path_body _ _ p c k _ _ rc rp eq_refl (non_query_commit_fails _ _ c k u e rr)). Qed.

Lemma path_non_query_committed (p : Pool) (c : Conn) (k : Cursor) query params u v rc rp :
  call_path (Some p) (non_query_body query params)
    [EvGetconn p (Return c); EvCursor c (Return k);
     EvLog INFO ("Executing non-query: " +:+ query);
     EvExecute k query params (Return u);
     EvCommit c (Return v); EvCursorClose k rc; EvPutconn p c rp]
    (after rp (after rc (Return v))).
Proof. exact (path_body _ _ p c k _ _ rc rp eq_refl (non_query_committed _ _ c k u v)). Qed.

Lemma path_getconn_fails {A} (body : Conn → Cursor → list Event → result A → Prop) (p : Pool) e :
  call_path (Some p) body [EvGetconn p (Raise e)] (Raise e).
Proof. by apply path_no_conn. Qed.

Lemma path_cursor_fails {A} (body : Conn → Cursor → list Event → result A → Prop)
    (p : Pool) (c : Conn) e rp :
  call_path (Some p) body
    [EvGetconn p (Return c); EvCursor c (Raise e); EvPutconn p c rp]
    (after rp (Raise e)).
Proof. by apply path_no_cursor. Qed.

Ltac find_path :=
  first
  [ apply path_no_pool; reflexivity
  | apply path_getconn_fails
  | match goal with
    | |- call_path _ _ [EvGetconn ?p _; EvCursor ?c (Raise ?e); EvPutconn _ _ ?rp] _ =>
        exact (path_cursor_fails _ p c e rp)
    end
  | apply path_query_statement_fails
  | apply path_query_fetch_fails
  | apply path_query_rows
  | apply path_query_no_rows
  | apply path_non_query_statement_fails
  | apply path_non_query_commit_fails
  | apply path_non_query_committed ].

(** Every run of [execute_query] follows one of the paths of [call_path]
    around [query_body], and leaves the object as it was. *)
Lemma execute_query_path (query : string) (params : option (list PyVal)) (st : State) :
  ∃ r tr w,
    execute_query query params st =
      (r, {| self := self st; world := w; trace := trace st ++ tr |}) ∧
    call_path (_pool (self st)) (query_body query params) tr r.
Proof.
  unfold_client; simpl.
  repeat step; settle.
  all: try (eexists _, _, _; split; [reflexivity|]; find_path).
  exists (Raise (AttributeError "getconn")), [], (world st).
  rewrite app_nil_r. destruct st; simpl in *.
  split; [reflexivity|find_path].
Qed.

Lemma execute_non_query_path (query : string) (params : option (list PyVal)) (st : State) :
  ∃ r tr w,
    execute_non_query query params st =
      (r, {| self := self st; world := w; trace := trace st ++ tr |}) ∧
    call_path (_pool (self st)) (non_query_body query params) tr r.
Proof.
  unfold_client; simpl.
  repeat step; settle.
  all: try (eexists _, _, _; split; [reflexivity|]; find_path).
  exists (Raise (AttributeError "getconn")), [], (world st).
  rewrite app_nil_r. destruct st; simpl in *.
  split; [reflexivity|find_path].
Qed.

(** Splits a goal about one call into the paths the call can take; every
    goal is left with the explicit list of its events. *)
Ltac by_paths :=
  let r := fresh "r" in
  let tr := fresh "tr" in
  let w := fresh "w" in
  let Hrun := fresh "Hrun" in
  let Hpath := fresh "Hpath" in
  let Hbody := fresh "Hbody" in
  match goal with
  | |- context [execute_query ?q ?ps ?st] =>
      destruct (execute_query_path q ps st) as (r & tr & w & Hrun & Hpath)
  | |- context [execute_non_query ?q ?ps ?st] =>
      destruct (execute_non_query_path q ps st) as (r & tr & w & Hrun & Hpath)
  end;
  rewrite !Hrun; simpl; rewrite ?new_events_app;
  destruct Hpath as [?|? ? ?|? ? ? ? ?|? ? ? ? ? ? ? ? Hbody];
  [ | | | destruct Hbody ]; simpl.

(** Reads a membership in an explicit list of events one element at a time. *)
Ltac among H :=
  repeat first
    [ apply elem_of_nil in H; destruct H
    | apply elem_of_cons in H; destruct H as [H|H];
      [ first [ discriminate H | injection H as ?; subst ] | ] ].

Lemma closes_precede_puts_sound (tr : list Event) :
  closes_precede_puts tr = true →
  ∀ i j ei ej,
    tr !! i = Some ei → is_cursor_close ei = true →
    tr !! j = Some ej → is_putconn ej = true → i < j.
Proof.
  induction tr as [|ev tr IH]; intros Hok i j ei ej Hi Hci Hj Hpj.
  - by rewrite lookup_nil in Hi.
  - simpl in Hok. apply andb_true_iff in Hok as [Hhead Htail].
    destruct i as [|i], j as [|j]; simpl in Hi, Hj.
    + injection Hi as <-. injection Hj as <-. destruct ev; discriminate.
    + lia.
    + injection Hj as <-. rewrite Hpj in Hhead. simpl in Hhead.
      rewrite forallb_forall in Hhead.
      assert (In ei tr) as Hin by (apply list_elem_of_In; by eapply list_elem_of_lookup_2).
      apply Hhead in Hin. rewrite Hci in Hin. discriminate.
    + pose proof (IH Htail i j ei ej Hi Hci Hj Hpj). lia.
Qed.

(** One call, seen from its caller: the object is untouched and the events
    are appended to the trace. *)
Lemma serve_extends (rq : Request) (st : State) :
  self (snd (serve rq st)) = self st ∧
  trace (snd (serve rq st)) = trace st ++ new_events st (snd (serve rq st)).
Proof.
  destruct rq as [query params|query params]; unfold serve.
  - destruct (execute_query_path query params st) as (r & tr & w & Hrun & _).
    rewrite Hrun; simpl. by rewrite new_events_app.
  - destruct (execute_non_query_path query params st) as (r & tr & w & Hrun & _).
    rewrite Hrun; simpl. by rewrite new_events_app.
Qed.

Lemma serve_all_extends (rqs : list Request) (st : State) :
  self (serve_all rqs st) = self st ∧
  trace (serve_all rqs st) = trace st ++ new_events st (serve_all rqs st).
Proof.
  revert st. induction rqs as [|rq rqs IH]; intros st; simpl.
  - rewrite new_events_refl, app_nil_r. done.
  - destruct (IH (snd (serve rq st))) as (Hself & Htrace).
    destruct (serve_extends rq st) as (Hself1 & Htrace1).
    unfold serve_all in *. simpl.
    set (st1 := snd (serve rq st)) in *.
    set (st2 := foldl _ st1 rqs) in *.
    assert (new_events st st2 = new_events st st1 ++ new_events st1 st2) as Hsplit.
    { unfold new_events at 1. rewrite Htrace, Htrace1, <- app_assoc.
      by rewrite drop_app_length. }
    split; [congruence|].
    rewrite Hsplit, app_assoc, <- Htrace1. done.
Qed.

(** ** The events are the calls *)

Lemma driver_run_app (tr1 tr2 : list Event) (w w2 : World) :
  driver_run (tr1 ++ tr2) w w2 ↔
  ∃ w1, driver_run tr1 w w1 ∧ driver_run tr2 w1 w2.
Proof.
  revert w. induction tr1 as [|ev tr1 IH]; intros w; simpl.
  - split; [intros Hrun; by exists w|by intros (w1 & -> & Hrun)].
  - split.
    + intros (w0 & Hev & Hrest). apply IH in Hrest as (w1 & Hrun1 & Hrun2).
      exists w1. split; [by exists w0|done].
    + intros (w1 & (w0 & Hev & Hrun1) & Hrun2). exists w0. split; [done|].
      apply IH. by exists w1.
Qed.

(** Replays an explicit list of events from the calls in the context. *)
Ltac replay :=
  simpl; repeat (eexists; split; [first [eassumption|reflexivity]|]);
  try reflexivity.

(** Takes a run of the driver apart into its calls. *)
Ltac unchain :=
  repeat match goal with
  | H : ∃ _, _ |- _ => destruct H as [? H]
  | H : _ ∧ _ |- _ => destruct H as [? H]
  end; subst.

(** The events of a call are the calls it made on the driver, in this
    order, and the world it leaves is the one the last of them left. *)
Lemma execute_query_run (query : string) (params : option (list PyVal))
    (st : State) :
  driver_run (new_events st (snd (execute_query query params st)))
    (world st) (world (snd (execute_query query params st))).
Proof.
  unfold_client; simpl.
  repeat step; settle; rewrite ?new_events_refl; replay.
Qed.

Lemma execute_non_query_run (query : string) (params : option (list PyVal))
    (st : State) :
  driver_run (new_events st (snd (execute_non_query query params st)))
    (world st) (world (snd (execute_non_query query params st))).
Proof.
  unfold_client; simpl.
  repeat step; settle; rewrite ?new_events_refl; replay.
Qed.

Lemma serve_run (rq : Request) (st : State) :
  driver_run (new_events st (snd (serve rq st)))
    (world st) (world (snd (serve rq st))).
Proof.
  destruct rq as [query params|query params]; unfold serve.
  - pose proof (execute_query_run query params st) as Hrun.
    by destruct (execute_query query params st).
  - pose proof (execute_non_query_run query params st) as Hrun.
    by destruct (execute_non_query query params st).
Qed.

(** On every exit path of [execute_query] and [execute_non_query], a
    connection obtained from the pool is handed to the pool's [putconn] once,
    as the last call of all, and a cursor that was opened is closed once. *)
Lemma serve_releases_once (rq : Request) (st : State) :
  let st1 := snd (serve rq st) in
  let tr := new_events st st1 in
  driver_run tr (world st) (world st1) ∧
  (∀ p c, EvGetconn p (Return c) ∈ tr →
     ∃ pre rp w1,
       tr = pre ++ [EvPutconn p c rp] ∧
       filter is_putconn pre = [] ∧
       driver_run pre (world st) w1 ∧
       pool_putconn p c w1 = (rp, world st1)) ∧
  (∀ c k, EvCursor c (Return k) ∈ tr →
     ∃ r, filter is_cursor_close tr = [EvCursorClose k r]) ∧
  length (filter is_putconn tr) = length (filter is_getconn_ok tr) ∧
  length (filter is_cursor_close tr) = length (filter is_cursor_ok tr).
Proof.
  cbv zeta. split; [apply serve_run|]. split; [|split; [|split]].
  - pose proof (serve_run rq st) as Hcalls. revert Hcalls.
    destruct rq as [query params|query params]; unfold serve; by_paths;
      intros Hcalls p0 c0 Hin; among Hin; unchain;
      match goal with
      | |- ∃ pre rp w1, ?g :: ?body = _ ∧ _ =>
          exists (removelast (g :: body))
      end; simpl; eexists _, _;
      (split; [reflexivity|]); (split; [reflexivity|]);
      (split; [replay|eassumption]).
  - intros c k Hin; revert Hin.
    destruct rq as [query params|query params]; unfold serve; by_paths;
      intros Hin; among Hin; by eexists.
  - destruct rq as [query params|query params]; unfold serve; by_paths; reflexivity.
  - destruct rq as [query params|query params]; unfold serve; by_paths; reflexivity.
Qed.

(** C8: in every call the cursor is closed strictly before the connection
    goes back to the pool: the events are the calls made on the driver, no
    cursor is closed after a [putconn], and once a cursor was opened the call
    ends with [close] on that cursor followed by [putconn] of its connection,
    the last two calls on the driver, whatever happened in between. *)
Theorem C8_cursor_closed_before_putconn (rq : Request) (st : State) :
  let st1 := snd (serve rq st) in
  let tr := new_events st st1 in
  driver_run tr (world st) (world st1) ∧
  (∀ i j ei ej,
     tr !! i = Some ei → is_cursor_close ei = true →
     tr !! j = Some ej → is_putconn ej = true → i < j) ∧
  (∀ c k, EvCursor c (Return k) ∈ tr →
     ∃ pre p rc rp w1 w2,
       tr = pre ++ [EvCursorClose k rc; EvPutconn p c rp] ∧
       driver_run pre (world st) w1 ∧
       cursor_close k w1 = (rc, w2) ∧
       pool_putconn p c w2 = (rp, world st1)).
Proof.
  cbv zeta. split; [apply serve_run|]. split.
  - apply closes_precede_puts_sound.
    destruct rq as [query params|query params]; unfold serve; by_paths; reflexivity.
  - pose proof (serve_run rq st) as Hcalls. revert Hcalls.
    destruct rq as [query params|query params]; unfold serve; by_paths;
      intros Hcalls c0 k0 Hin; among Hin; unchain;
      match goal with
      | |- ∃ pre p rc rp w1 w2, ?g :: ?o :: ?body = _ ∧ _ =>
          exists (removelast (removelast (g :: o :: body)))
      end; simpl; eexists _, _, _, _, _;
      (split; [reflexivity|]); (split; [replay|]); split; eassumption.
Qed.

(** C10: a call of [execute_query] or [execute_non_query], returning or
    raising, leaves the object as it was: the same pool reference and the
    same configuration. *)
Theorem C10_execute_leaves_client_unchanged (rq : Request) (st : State) :
  _pool (self (snd (serve rq st))) = _pool (self st) ∧
  db_config (self (snd (serve rq st))) = db_config (self st) ∧
  self (snd (serve rq st)) = self st.
Proof.
  destruct (serve_extends rq st) as [Hself _]. by rewrite Hself.
Qed.


(** C1, as the code has it: when the statement fails, the failure is
    logged, [rollback] is called on the connection in the world the failed
    statement left, then [close] on the cursor and [putconn] on the
    connection, and the call raises: the driver's own error, as it is, when
    those three calls return, and the error of the last of them that raised
    otherwise.  No other exception class is involved. *)
Theorem C1_failed_statement_rolled_back_and_reraised (query : string)
    (params : option (list PyVal)) (st : State) (k : Cursor) (e : PyExn) :
  (EvExecute k query params (Raise e)
     ∈ new_events st (snd (execute_query query params st)) →
   ∃ p c rr rc rp w1 w2 w3 w4 w5,
     new_events st (snd (execute_query query params st)) =
       [EvGetconn p (Return c); EvCursor c (Return k);
        EvLog INFO ("Executing query: " +:+ query);
        EvExecute k query params (Raise e);
        EvLog ERROR ("Query execution failed: " +:+ exn_msg e);
        EvRollback c rr; EvCursorClose k rc; EvPutconn p c rp] ∧
     pool_getconn p (world st) = (Return c, w1) ∧
     conn_cursor c w1 = (Return k, w2) ∧
     cursor_execute k query params w2 = (Raise e, w3) ∧
     conn_rollback c w3 = (rr, w4) ∧
     cursor_close k w4 = (rc, w5) ∧
     pool_putconn p c w5 = (rp, world (snd (execute_query query params st))) ∧
     fst (execute_query query params st) = after rp (after rc (after rr (Raise e))) ∧
     is_Some (raised (fst (execute_query query params st))) ∧
     (raised rr = None → raised rc = None → raised rp = None →
      fst (execute_query query params st) = Raise e)) ∧
  (EvExecute k query params (Raise e)
     ∈ new_events st (snd (execute_non_query query params st)) →
   ∃ p c rr rc rp w1 w2 w3 w4 w5,
     new_events st (snd (execute_non_query query params st)) =
       [EvGetconn p (Return c); EvCursor c (Return k);
        EvLog INFO ("Executing non-query: " +:+ query);
        EvExecute k query params (Raise e);
        EvLog ERROR ("Non-query execution failed: " +:+ exn_msg e);
        EvRollback c rr; EvCursorClose k rc; EvPutconn p c rp] ∧
     pool_getconn p (world st) = (Return c, w1) ∧
     conn_cursor c w1 = (Return k, w2) ∧
     cursor_execute k query params w2 = (Raise e, w3) ∧
     conn_rollback c w3 = (rr, w4) ∧
     cursor_close k w4 = (rc, w5) ∧
     pool_putconn p c w5 = (rp, world (snd (execute_non_query query params st))) ∧
     fst (execute_non_query query params st) = after rp (after rc (after rr (Raise e))) ∧
     is_Some (raised (fst (execute_non_query query params st))) ∧
     (raised rr = None → raised rc = None → raised rp = None →
      fst (execute_non_query query params st) = Raise e)).
Proof.
  split;
    [generalize (execute_query_run query params st)
    |generalize (execute_non_query_run query params st)];
    by_paths; intros Hcalls Hin; among Hin; unchain;
    eexists _, _, _, _, _, _, _, _, _, _; (split; [reflexivity|]);
    do 6 (split; [eassumption|]); (split; [reflexivity|]);
    (split; [destruct rp, rc, rr; by eexists|]);
    destruct rp, rc, rr; simpl; intros; simplify_eq; done.
Qed.

Lemma close_keeps_self (st : State) : self (snd (close st)) = self st.
Proof.
  unfold close. destruct (_pool (self st)); [|done].
  unfold call, log, mbind, M_bind; simpl.
  destruct (pool_closeall _ _) as [[?|?] ?]; done.
Qed.

(** After [close], which calls the pool's [closeall], the object still
    holds its pool and has no closed flag of its own: every later call starts
    by asking that pool for a connection, and when the pool refuses, raises
    the pool's error unchanged and calls nothing else. *)
Lemma execute_after_close_asks_the_pool (st : State) (p : Pool)
    (rqs : list Request) (rq : Request) :
  _pool (self st) = Some p →
  let st1 := serve_all rqs (snd (close st)) in
  (∃ rc w0, pool_closeall p (world st) = (rc, w0) ∧
            fst (close st) = rc ∧ world (snd (close st)) = w0) ∧
  _pool (self st1) = Some p ∧
  ∃ r w tr,
    pool_getconn p (world st1) = (r, w) ∧
    new_events st1 (snd (serve rq st1)) = EvGetconn p r :: tr ∧
    ∀ e, r = Raise e →
      fst (serve rq st1) = Some e ∧ tr = [] ∧ world (snd (serve rq st1)) = w.
Proof.
  intros Hpool st1. split.
  { unfold close. rewrite Hpool. unfold call, log, mbind, M_bind; simpl.
    destruct (pool_closeall p (world st)) as [[[]|e] w0]; by eexists _, _. }
  assert (_pool (self st1) = Some p) as Hpool1.
  { unfold st1. destruct (serve_all_extends rqs (snd (close st))) as [-> _].
    by rewrite close_keeps_self. }
  split; [done|]. clearbody st1.
  destruct rq as [query params|query params]; unfold serve;
    unfold_client; simpl; rewrite Hpool1; simpl;
    repeat step; settle;
    eexists _, _, _; (split; [reflexivity|]); (split; [reflexivity|]);
    intros; simplify_eq; done.
Qed.

(** C4, as the code has it: [close] keeps the pool reference and calls the
    pool's [closeall] each time it runs on an object that holds a pool; a
    second [close] repeats the call on the pool the first one closed and
    returns or raises what that call does.  Without a pool, [close] does
    nothing. *)
Theorem C4_close_calls_closeall_each_time (st : State) :
  (∀ p, _pool (self st) = Some p →
     ∃ r w,
       pool_closeall p (world st) = (r, w) ∧
       fst (close st) = r ∧
       self (snd (close st)) = self st ∧
       world (snd (close st)) = w ∧
       new_events st (snd (close st)) =
         EvCloseall p r ::
         match r with
         | Return _ => [EvLog INFO "Connection pool closed."]
         | Raise _ => []
         end) ∧
  (∀ p, _pool (self st) = Some p →
     let st1 := snd (close st) in
     ∃ r2 w2,
       pool_closeall p (world st1) = (r2, w2) ∧
       fst (close st1) = r2 ∧
       ∃ tr, new_events st1 (snd (close st1)) = EvCloseall p r2 :: tr) ∧
  (_pool (self st) = None → close st = (Return (), st)).
Proof.
  assert (∀ st0 p, _pool (self st0) = Some p →
     ∃ r w,
       pool_closeall p (world st0) = (r, w) ∧
       fst (close st0) = r ∧
       self (snd (close st0)) = self st0 ∧
       world (snd (close st0)) = w ∧
       new_events st0 (snd (close st0)) =
         EvCloseall p r ::
         match r with
         | Return _ => [EvLog INFO "Connection pool closed."]
         | Raise _ => []
         end) as Hone.
  { intros st0 p Hpool. unfold close. rewrite Hpool.
    unfold call, log, mbind, M_bind; simpl.
    destruct (pool_closeall p (world st0)) as [[[]|e] w]; simpl;
      eexists _, _; (split; [reflexivity|]); (split; [reflexivity|]);
      (split; [reflexivity|]); (split; [reflexivity|]);
      rewrite <- ?app_assoc; simpl; by rewrite new_events_app. }
  split; [exact (Hone st)|]. split.
  - intros p Hpool st1.
    assert (_pool (self st1) = Some p) as Hpool1
      by (unfold st1; by rewrite close_keeps_self).
    destruct (Hone st1 p Hpool1) as (r2 & w2 & Hcall & Hres & _ & _ & Hev).
    exists r2, w2. split; [done|]. split; [done|]. by eexists.
  - intros Hnone. unfold close. by rewrite Hnone.
Qed.

(** C6, as the code has it: when the pool constructor raises, the failure
    is logged and the same exception is raised again, unchanged; a missing
    connection entry raises [KeyError] the same way.  Construction is all or
    nothing: either [__init__] returns and the object holds the pool the
    driver built, or it raises, no object reaches the caller, and [_pool] is
    still [None]. *)
Theorem C6_construction_all_or_nothing (cfg : gmap string PyVal) (w : World) :
  (∀ db st, DB_new cfg w = (Return db, st) →
     db = self st ∧ db_config db = cfg ∧
     ∃ p dbname user password host port,
       _pool db = Some p ∧
       pool_new (default (VInt 1) (cfg !! "minconn"))
                (default (VInt 10) (cfg !! "maxconn"))
                dbname user password host port w = (Return p, world st)) ∧
  (∀ e st, DB_new cfg w = (Raise e, st) →
     _pool (self st) = None ∧
     last (trace st) =
       Some (EvLog ERROR ("Failed to initialize connection pool: " +:+ exn_msg e))) ∧
  (∀ dbname user password host port e w1,
     cfg !! "dbname" = Some dbname → cfg !! "user" = Some user →
     cfg !! "password" = Some password → cfg !! "host" = Some host →
     cfg !! "port" = Some port →
     pool_new (default (VInt 1) (cfg !! "minconn"))
              (default (VInt 10) (cfg !! "maxconn"))
              dbname user password host port w = (Raise e, w1) →
     DB_new cfg w =
       (Raise e,
        {| self := {| db_config := cfg; _pool := None; logger := "DB" |};
           world := w1;
           trace := [EvPoolNew (default (VInt 1) (cfg !! "minconn"))
                       (default (VInt 10) (cfg !! "maxconn"))
                       dbname user password host port (Raise e);
                     EvLog ERROR ("Failed to initialize connection pool: "
                                  +:+ exn_msg e)] |})).
Proof.
  unfold DB_new, __init__, _initialize_connection_pool, _setup_logging,
    set_db_config, set_pool, set_logger, get_db_config, subscript,
    try_except, call, log, raise, mbind, M_bind, mret, M_ret; simpl.
  split; [|split].
  - intros db st.
    destruct (cfg !! "dbname") as [dbname|]; simpl; [|discriminate].
    destruct (cfg !! "user") as [user|]; simpl; [|discriminate].
    destruct (cfg !! "password") as [password|]; simpl; [|discriminate].
    destruct (cfg !! "host") as [host|]; simpl; [|discriminate].
    destruct (cfg !! "port") as [port|]; simpl; [|discriminate].
    destruct (pool_new _ _ _ _ _ _ _ _) as [[p|e] w1] eqn:Hnew; simpl; [|discriminate].
    intros [= <- <-]; simpl. split; [done|]. split; [done|].
    by exists p, dbname, user, password, host, port.
  - intros e st.
    destruct (cfg !! "dbname") as [dbname|]; simpl; [|by intros [= <- <-]].
    destruct (cfg !! "user") as [user|]; simpl; [|by intros [= <- <-]].
    destruct (cfg !! "password") as [password|]; simpl; [|by intros [= <- <-]].
    destruct (cfg !! "host") as [host|]; simpl; [|by intros [= <- <-]].
    destruct (cfg !! "port") as [port|]; simpl; [|by intros [= <- <-]].
    destruct (pool_new _ _ _ _ _ _ _ _) as [[p|e1] w1] eqn:Hnew; simpl; [discriminate|].
    by intros [= <- <-].
  - intros dbname user password host port e w1 -> -> -> -> -> Hnew; simpl.
    by rewrite Hnew.
Qed.

(** What a call of [execute_query] that returns gives back, once the
    statement has run: the rows of [fetchall], called once, when
    [cursor.description] is true, and no row, [fetchall] not being called,
    when it is [None] or empty. *)
Lemma execute_query_result (query : string) (params : option (list PyVal))
    (st : State) (p : Pool) (c : Conn) (k : Cursor) (u : unit)
    (w1 w2 w3 : World) (rows : list Row) :
  _pool (self st) = Some p →
  pool_getconn p (world st) = (Return c, w1) →
  conn_cursor c w1 = (Return k, w2) →
  cursor_execute k query params w2 = (Return u, w3) →
  fst (execute_query query params st) = Return rows →
  if description_truthy (cursor_description k w3)
  then (∃ w4, cursor_fetchall k w3 = (Return rows, w4)) ∧
       filter is_fetchall (new_events st (snd (execute_query query params st))) =
         [EvFetchall k (Return rows)]
  else rows = [] ∧
       filter is_fetchall (new_events st (snd (execute_query query params st))) = [].
Proof.
  intros Hpool Hget Hcur Hexec.
  unfold_client; simpl. rewrite Hpool; simpl. rewrite Hget; simpl.
  rewrite Hcur; simpl. rewrite Hexec; simpl.
  destruct (description_truthy (cursor_description k w3)); simpl;
    repeat step; intros; settle; simplify_eq; eauto.
Qed.

(** ** More about the calls *)


(** A configuration that lacks one of the five connection entries makes the
    constructor raise [KeyError] for the first one missing, in the order
    dbname, user, password, host, port; the failure is logged and the pool
    constructor is not called. *)
Theorem DB_new_missing_entry (cfg : gmap string PyVal) (w : World)
    (present : list string) (key : string) (others : list string) :
  connection_keys = present ++ key :: others →
  Forall (λ k, is_Some (cfg !! k)) present →
  cfg !! key = None →
  DB_new cfg w =
    (Raise (KeyError key),
     {| self := {| db_config := cfg; _pool := None; logger := "DB" |};
        world := w;
        trace := [EvLog ERROR ("Failed to initialize connection pool: "
                               +:+ exn_msg (KeyError key))] |}).
Proof.
  intros Hkeys Hpresent Hmissing.
  unfold DB_new, __init__, _initialize_connection_pool, _setup_logging,
    set_db_config, set_pool, set_logger, get_db_config, subscript,
    try_except, call, log, raise, mbind, M_bind, mret, M_ret; simpl.
  unfold connection_keys in Hkeys.
  repeat (destruct present as [|? present];
          [injection Hkeys as <- <-; rewrite ?Hmissing; reflexivity
          |injection Hkeys as <- Hkeys;
           apply Forall_cons in Hpresent as [[? ->] Hpresent]; simpl]).
  destruct present; discriminate Hkeys.
Qed.

(** The constructor reads the configuration through seven entries only: two
    configurations that agree on them build the pool in the same way. *)
Theorem DB_new_reads_seven_entries (cfg cfg1 : gmap string PyVal) (w : World) :
  (∀ k, k ∈ "minconn" :: "maxconn" :: connection_keys → cfg !! k = cfg1 !! k) →
  raised (DB_new cfg w).1 = raised (DB_new cfg1 w).1 ∧
  _pool (self (DB_new cfg w).2) = _pool (self (DB_new cfg1 w).2) ∧
  world (DB_new cfg w).2 = world (DB_new cfg1 w).2 ∧
  trace (DB_new cfg w).2 = trace (DB_new cfg1 w).2.
Proof.
  intros Hagree.
  assert (cfg !! "minconn" = cfg1 !! "minconn") as Hmin by (apply Hagree; present).
  assert (cfg !! "maxconn" = cfg1 !! "maxconn") as Hmax by (apply Hagree; present).
  assert (cfg !! "dbname" = cfg1 !! "dbname") as Hdb by (apply Hagree; present).
  assert (cfg !! "user" = cfg1 !! "user") as Huser by (apply Hagree; present).
  assert (cfg !! "password" = cfg1 !! "password") as Hpw by (apply Hagree; present).
  assert (cfg !! "host" = cfg1 !! "host") as Hhost by (apply Hagree; present).
  assert (cfg !! "port" = cfg1 !! "port") as Hport by (apply Hagree; present).
  unfold DB_new, __init__, _initialize_connection_pool, _setup_logging,
    set_db_config, set_pool, set_logger, get_db_config, subscript,
    try_except, call, log, raise, mbind, M_bind, mret, M_ret; simpl.
  rewrite Hmin, Hmax, Hdb, Huser, Hpw, Hhost, Hport.
  destruct (cfg1 !! "dbname"); simpl; [|done].
  destruct (cfg1 !! "user"); simpl; [|done].
  destruct (cfg1 !! "password"); simpl; [|done].
  destruct (cfg1 !! "host"); simpl; [|done].
  destruct (cfg1 !! "port"); simpl; [|done].
  by destruct (pool_new _ _ _ _ _ _ _ _) as [[pool|e] w1].
Qed.

(** A call submits its statement at most once, with the text and the
    parameters it was given, unchanged. *)
Theorem statement_submitted_verbatim (query : string)
    (params : option (list PyVal)) (st : State) :
  (filter is_execute (new_events st (execute_query query params st).2) = [] ∨
   ∃ k r, filter is_execute (new_events st (execute_query query params st).2) =
          [EvExecute k query params r]) ∧
  (filter is_execute (new_events st (execute_non_query query params st).2) = [] ∨
   ∃ k r, filter is_execute (new_events st (execute_non_query query params st).2) =
          [EvExecute k query params r]).
Proof.
  split; by_paths; first [by left | right; by eexists _, _].
Qed.

(** [execute_query] opens one cursor at most and ends its transaction in
    one way at most: the commits and the rollbacks of a call are calls on the
    driver and number no more than the cursors it opened; [rollback] is
    called only after the statement or the fetch raised.  A call that returns
    has committed and not rolled back. *)
Theorem execute_query_commit_or_rollback (query : string)
    (params : option (list PyVal)) (st : State) :
  let st1 := (execute_query query params st).2 in
  let tr := new_events st st1 in
  driver_run tr (world st) (world st1) ∧
  (length (filter is_cursor_ok tr) ≤ 1)%nat ∧
  (length (filter is_commit tr) + length (filter is_rollback tr)
     ≤ length (filter is_cursor_ok tr))%nat ∧
  (∀ c rr, EvRollback c rr ∈ tr →
     (∃ k e, EvExecute k query params (Raise e) ∈ tr) ∨
     (∃ k e, EvFetchall k (Raise e) ∈ tr)) ∧
  (∀ rows, (execute_query query params st).1 = Return rows →
     ∃ c v, filter is_commit tr = [EvCommit c (Return v)] ∧
            filter is_rollback tr = []).
Proof.
  cbv zeta. split; [apply execute_query_run|].
  by_paths; (split; [lia|]); (split; [lia|]); split.
  all: try (intros c0 rr0 Hin; among Hin; first
         [ left; eexists _, _; solve [present]
         | right; eexists _, _; solve [present] ]).
  all: intros rows0 Hret; try discriminate Hret;
    repeat match goal with
    | r : result () |- _ => destruct r; simpl in Hret; try discriminate Hret
    end; by eexists _, _.
Qed.

(** [execute_non_query] never fetches.  Its events are calls on the
    driver; it calls [rollback] once at most, and only after the statement
    or the commit raised; it returns only after a commit that returned,
    without a rollback. *)
Theorem execute_non_query_discipline (query : string)
    (params : option (list PyVal)) (st : State) :
  let st1 := (execute_non_query query params st).2 in
  let tr := new_events st st1 in
  driver_run tr (world st) (world st1) ∧
  filter is_fetchall tr = [] ∧
  (length (filter is_rollback tr) ≤ 1)%nat ∧
  (∀ c rr, EvRollback c rr ∈ tr →
     (∃ k e, EvExecute k query params (Raise e) ∈ tr) ∨
     (∃ c1 e, EvCommit c1 (Raise e) ∈ tr)) ∧
  ((execute_non_query query params st).1 = Return () →
     ∃ c v, filter is_commit tr = [EvCommit c (Return v)] ∧
            filter is_rollback tr = []).
Proof.
  cbv zeta. split; [apply execute_non_query_run|].
  by_paths; (split; [reflexivity|]); (split; [lia|]); split.
  all: try (intros c0 rr0 Hin; among Hin; first
         [ left; eexists _, _; solve [present]
         | right; eexists _, _; solve [present] ]).
  all: intros Hret; try discriminate Hret;
    repeat match goal with
    | r : result () |- _ => destruct r; simpl in Hret; try discriminate Hret
    end; by eexists _, _.
Qed.



(** When the pool refuses the connection, the call raises the pool's error
    and has called nothing else. *)
Lemma serve_getconn_refused (rq : Request) (st : State) (p : Pool)
    (e : PyExn) (w : World) :
  _pool (self st) = Some p →
  pool_getconn p (world st) = (Raise e, w) →
  serve rq st =
    (Some e, {| self := self st; world := w;
                trace := trace st ++ [EvGetconn p (Raise e)] |}).
Proof.
  intros Hpool Hget.
  destruct rq as [query params|query params]; unfold serve;
    unfold_client; simpl; rewrite Hpool; simpl; by rewrite Hget.
Qed.

(** ** A pool that keeps count

    Whatever the pool calls idle and leased: when [getconn] leads from idle
    to leased, [putconn] back, and the calls on connections and cursors leave
    the pool alone, every call of the client starts and ends with the pool
    idle. *)
Section PoolDiscipline.

Variable p : Pool.
Variable idle : World → Prop.
Variable leased : Conn → World → Prop.

Hypothesis getconn_leases : ∀ w r w1,
  idle w → pool_getconn p w = (r, w1) →
  match r with Return c => leased c w1 | Raise _ => idle w1 end.
Hypothesis putconn_returns : ∀ c w r w1,
  leased c w → pool_putconn p c w = (r, w1) → idle w1.
Hypothesis cursor_keeps : ∀ c c1 w r w1,
  leased c w → conn_cursor c1 w = (r, w1) → leased c w1.
Hypothesis commit_keeps : ∀ c c1 w r w1,
  leased c w → conn_commit c1 w = (r, w1) → leased c w1.
Hypothesis rollback_keeps : ∀ c c1 w r w1,
  leased c w → conn_rollback c1 w = (r, w1) → leased c w1.
Hypothesis execute_keeps : ∀ c k query params w r w1,
  leased c w → cursor_execute k query params w = (r, w1) → leased c w1.
Hypothesis fetchall_keeps : ∀ c k w r w1,
  leased c w → cursor_fetchall k w = (r, w1) → leased c w1.
Hypothesis close_keeps : ∀ c k w r w1,
  leased c w → cursor_close k w = (r, w1) → leased c w1.

(** Carries the invariant over the driver calls of a run, oldest first. *)
Ltac carry :=
  repeat match goal with
  | Hi : idle ?w, Hc : pool_getconn p ?w = (_, _) |- _ =>
      pose proof (getconn_leases _ _ _ Hi Hc); clear Hc; simpl in *
  | Hl : leased ?c ?w, Hc : conn_cursor _ ?w = (_, _) |- _ =>
      pose proof (cursor_keeps _ _ _ _ _ Hl Hc); clear Hc
  | Hl : leased ?c ?w, Hc : cursor_execute _ _ _ ?w = (_, _) |- _ =>
      pose proof (execute_keeps _ _ _ _ _ _ _ Hl Hc); clear Hc
  | Hl : leased ?c ?w, Hc : cursor_fetchall _ ?w = (_, _) |- _ =>
      pose proof (fetchall_keeps _ _ _ _ _ Hl Hc); clear Hc
  | Hl : leased ?c ?w, Hc : conn_commit _ ?w = (_, _) |- _ =>
      pose proof (commit_keeps _ _ _ _ _ Hl Hc); clear Hc
  | Hl : leased ?c ?w, Hc : conn_rollback _ ?w = (_, _) |- _ =>
      pose proof (rollback_keeps _ _ _ _ _ Hl Hc); clear Hc
  | Hl : leased ?c ?w, Hc : cursor_close _ ?w = (_, _) |- _ =>
      pose proof (close_keeps _ _ _ _ _ Hl Hc); clear Hc
  | Hl : leased ?c ?w, Hc : pool_putconn p ?c ?w = (_, _) |- _ =>
      pose proof (putconn_returns _ _ _ _ Hl Hc); clear Hc
  end.

Lemma serve_keeps_idle (rq : Request) (st : State) :
  _pool (self st) = Some p → idle (world st) →
  idle (world (snd (serve rq st))).
Proof.
  intros Hpool Hidle.
  destruct rq as [query params|query params]; unfold serve;
    unfold_client; simpl; rewrite Hpool; simpl;
    repeat step; simplify_eq; carry; assumption.
Qed.

Lemma serve_all_keeps_idle (rqs : list Request) (st : State) :
  _pool (self st) = Some p → idle (world st) →
  idle (world (serve_all rqs st)).
Proof.
  revert st. induction rqs as [|rq rqs IH]; intros st Hpool Hidle; simpl; [done|].
  apply IH.
  - by destruct (serve_extends rq st) as [-> _].
  - by apply serve_keeps_idle.
Qed.

(** A call asks the pool once, first of all. *)
Lemma serve_getconn_once (rq : Request) (st : State) :
  _pool (self st) = Some p →
  ∃ r w tr,
    pool_getconn p (world st) = (r, w) ∧
    new_events st (snd (serve rq st)) = EvGetconn p r :: tr ∧
    forallb (λ ev, negb (is_getconn ev)) tr = true.
Proof.
  intros Hpool.
  destruct rq as [query params|query params]; unfold serve;
    unfold_client; simpl; rewrite Hpool; simpl;
    repeat step; settle;
    eexists _, _, _; (split; [reflexivity|]); split; reflexivity.
Qed.

(** Carries the invariant up to the [putconn] of a run. *)
Ltac carry_to_putconn :=
  repeat match goal with
  | Hi : idle ?w, Hc : pool_getconn p ?w = (_, _) |- _ =>
      pose proof (getconn_leases _ _ _ Hi Hc); clear Hc; simpl in *
  | Hl : leased ?c ?w, Hc : conn_cursor _ ?w = (_, _) |- _ =>
      pose proof (cursor_keeps _ _ _ _ _ Hl Hc); clear Hc
  | Hl : leased ?c ?w, Hc : cursor_execute _ _ _ ?w = (_, _) |- _ =>
      pose proof (execute_keeps _ _ _ _ _ _ _ Hl Hc); clear Hc
  | Hl : leased ?c ?w, Hc : cursor_fetchall _ ?w = (_, _) |- _ =>
      pose proof (fetchall_keeps _ _ _ _ _ Hl Hc); clear Hc
  | Hl : leased ?c ?w, Hc : conn_commit _ ?w = (_, _) |- _ =>
      pose proof (commit_keeps _ _ _ _ _ Hl Hc); clear Hc
  | Hl : leased ?c ?w, Hc : conn_rollback _ ?w = (_, _) |- _ =>
      pose proof (rollback_keeps _ _ _ _ _ Hl Hc); clear Hc
  | Hl : leased ?c ?w, Hc : cursor_close _ ?w = (_, _) |- _ =>
      pose proof (close_keeps _ _ _ _ _ Hl Hc); clear Hc
  end.

(** The connection a call obtained is still the one out when the call hands
    it to [putconn], its last call. *)
Lemma serve_putconn_leased (rq : Request) (st : State) (c : Conn) :
  _pool (self st) = Some p → idle (world st) →
  EvGetconn p (Return c) ∈ new_events st (snd (serve rq st)) →
  ∃ pre rp w1,
    new_events st (snd (serve rq st)) = pre ++ [EvPutconn p c rp] ∧
    leased c w1 ∧
    pool_putconn p c w1 = (rp, world (snd (serve rq st))).
Proof.
  intros Hpool Hidle.
  destruct rq as [query params|query params]; unfold serve;
    unfold_client; simpl; rewrite Hpool; simpl;
    repeat step; settle; intros Hin; among Hin; carry_to_putconn;
    match goal with
    | |- ∃ pre rp w1, ?g :: ?body = _ ∧ _ =>
        exists (removelast (g :: body))
    end; simpl; eexists _, _; (split; [reflexivity|]); split; eassumption.
Qed.

End PoolDiscipline.

End ClientFacts.

(** * The reference driver *)
Module Psycopg2Facts.
Import Psycopg2.

(** [range(n)] connections against a server that accepts them: one after the
    other, appended to the idle list in the order of their creation. *)
Lemma connect_n_accepted (n : nat) (dbname user password host port : PyVal)
    (idle : list nat) (w : RefWorld) :
  srv_connect (server w) dbname user password host port = None →
  connect_n n (dbname, user, password, host, port) idle w =
    (Return (idle ++ seq (length (conns w)) n),
     with_conns w (conns w ++ replicate n fresh_conn)).
Proof.
  revert idle w. induction n as [|n IH]; intros idle w Hok; simpl.
  - rewrite !app_nil_r. by destruct w.
  - rewrite Hok. rewrite IH by done. simpl.
    rewrite length_app, Nat.add_1_r, <- !app_assoc. done.
Qed.

(** The keys of a [RealDictRow] are the columns of the result set. *)
Lemma real_dict_row_keys (columns : list string) (tuple : list PyVal) :
  length columns = length tuple →
  dom (real_dict_row columns tuple) = list_to_set columns.
Proof.
  intros Hlen. unfold real_dict_row.
  rewrite dom_list_to_map_L, fmap_reverse, fst_zip by lia.
  apply set_eq; intros x. rewrite !elem_of_list_to_set, elem_of_reverse. done.
Qed.

(** The calls on connections and cursors leave the pools alone. *)
Lemma cursor_pools c w : pools (snd (cursor c w)) = pools w.
Proof. unfold cursor. by destruct (conn_is_closed w c). Qed.

Lemma commit_pools c w : pools (snd (commit c w)) = pools w.
Proof.
  unfold commit. destruct (conns w !! c) as [cs|]; [|done].
  destruct (c_closed cs); [done|].
  destruct (c_status cs); try done.
  by destruct (srv_commit _ _).
Qed.

Lemma rollback_pools c w : pools (snd (rollback c w)) = pools w.
Proof. unfold rollback. by destruct (conn_is_closed w c). Qed.

Lemma execute_pools k query params w :
  pools (snd (execute k query params w)) = pools w.
Proof.
  unfold execute. destruct (cursors w !! k) as [ks|]; [|done].
  destruct (conns w !! k_conn ks) as [cs|]; [|done].
  destruct (k_closed ks || c_closed cs); [done|].
  destruct (c_status cs); try done; by destruct (srv_run _ _ _).
Qed.

Lemma fetchall_pools k w : pools (snd (fetchall k w)) = pools w.
Proof.
  unfold fetchall. destruct (cursors w !! k) as [ks|]; [|done].
  destruct (k_closed ks || conn_is_closed w (k_conn ks)); [done|].
  by destruct (k_result ks) as [[? ?]|].
Qed.

Lemma leased_only_pools p m c w w1 :
  pools w1 = pools w → pool_leased p m c w → pool_leased p m c w1.
Proof. unfold pool_leased. by intros ->. Qed.

Lemma connect_pools args w : pools (snd (connect args w)) = pools w.
Proof.
  unfold connect. destruct args as [[[[dbname user] password] host] port].
  by destruct (srv_connect _ _ _ _ _ _).
Qed.

Lemma put_pool_lookup p ps ps1 w :
  pools w !! p = Some ps → pools (put_pool p ps1 w) !! p = Some ps1.
Proof.
  intros Hps. unfold put_pool; simpl.
  apply list_lookup_insert_eq. by eapply lookup_lt_Some.
Qed.

(** From an idle pool that may hold a connection, [getconn] hands one out,
    or passes on the refusal of the server to open one; it never finds the
    pool exhausted. *)
Lemma getconn_from_idle (p : nat) (m : Z) (w w1 : RefWorld) (r : result nat) :
  (0 < m)%Z → pool_idle p m w → getconn_ p w = (r, w1) →
  match r with
  | Return c => pool_leased p m c w1
  | Raise e =>
      pool_idle p m w1 ∧
      ∃ ps, pools w !! p = Some ps ∧ fst (connect (p_args ps) w) = Raise e
  end.
Proof.
  intros Hm (ps & Hps & Hopen & Hmax & Hused & Hrused). unfold getconn_.
  rewrite Hps, Hopen, Hused, lookup_empty.
  destruct (last (p_pool ps)) as [c|].
  - intros [= <- <-].
    exists (lease ps (S (p_keys ps)) c (removelast (p_pool ps))), (S (p_keys ps)).
    rewrite (put_pool_lookup _ _ _ _ Hps). simpl.
    rewrite Hused, Hrused, !insert_empty. done.
  - rewrite map_size_empty. destruct (decide _) as [Heq|_]; [simpl in Heq; lia|].
    pose proof (connect_pools (p_args ps) w) as Hsame.
    destruct (connect (p_args ps) w) as [[c|e] w2] eqn:Hconn; simpl in Hsame;
      intros [= <- <-].
    + exists (lease ps (S (p_keys ps)) c []), (S (p_keys ps)).
      rewrite <- Hsame in Hps. rewrite (put_pool_lookup _ _ _ _ Hps). simpl.
      rewrite Hused, Hrused, !insert_empty. done.
    + split.
      * exists (bump_keys ps (S (p_keys ps))).
        rewrite <- Hsame in Hps. by rewrite (put_pool_lookup _ _ _ _ Hps).
      * exists ps. by rewrite Hconn.
Qed.

Lemma end_tx_pools c w : pools (end_tx c w) = pools w.
Proof. done. Qed.

Lemma conn_close_pools c w : pools (conn_close c w) = pools w.
Proof. done. Qed.

(** [putconn] of the connection that is out leaves the pool idle. *)
Lemma putconn_to_idle (p : nat) (m : Z) (c : nat) (w w1 : RefWorld) (r : result unit) :
  pool_leased p m c w → putconn_ p c w = (r, w1) →
  r = Return () ∧ pool_idle p m w1.
Proof.
  intros (ps & key & Hps & Hopen & Hmax & Hused & Hrused). unfold putconn_.
  rewrite Hps, Hopen, Hrused, lookup_singleton_eq.
  assert (∀ idle w2, pools w2 = pools w →
            pool_idle p m (put_pool p (release ps key c idle) w2)) as Hidle.
  { intros idle w2 Hsame. exists (release ps key c idle).
    rewrite <- Hsame in Hps. rewrite (put_pool_lookup _ _ _ _ Hps). simpl.
    rewrite Hused, Hrused, !delete_singleton_eq. done. }
  destruct (decide _) as [_|_].
  - destruct (conns w !! c) as [cs|]; [destruct (c_closed cs)|];
      intros [= <- <-]; (split; [done|]); by apply Hidle.
  - intros [= <- <-]. split; [done|]. by apply Hidle.
Qed.

Lemma cursor_close_pools k w : pools (snd (cursor_close_ k w)) = pools w.
Proof. done. Qed.

(** On a pool that may hold at least one connection and has none out, any
    number of calls in sequence leave the pool idle, and the next call
    obtains a connection unless the server refuses to open one: the pool is
    never found exhausted. *)
Theorem sequential_calls_find_the_pool_idle (p : nat) (m : Z)
    (st : @State RefWorld nat nat nat) (rqs : list Request) (rq : Request) :
  (0 < m)%Z → _pool (self st) = Some p → pool_idle p m (world st) →
  let st1 := serve_all rqs st in
  pool_idle p m (world st1) ∧
  pool_idle p m (world (snd (serve rq st1))) ∧
  ∃ r w tr,
    getconn_ p (world st1) = (r, w) ∧
    new_events st1 (snd (serve rq st1)) = EvGetconn p r :: tr ∧
    forallb (λ ev, negb (is_getconn ev)) tr = true ∧
    match r with
    | Return _ => True
    | Raise e =>
        ∃ ps, pools (world st1) !! p = Some ps ∧
              fst (connect (p_args ps) (world st1)) = Raise e
    end.
Proof.
  intros Hm Hpool Hidle st1.
  assert (∀ rqs1 (st0 : @State RefWorld nat nat nat),
            _pool (self st0) = Some p → pool_idle p m (world st0) →
            pool_idle p m (world (serve_all rqs1 st0))) as Hkeeps.
  { intros rqs1 st0.
    apply (serve_all_keeps_idle p (pool_idle p m) (pool_leased p m)).
    - intros w r w1 Hi Hget. pose proof (getconn_from_idle p m w w1 r Hm Hi Hget) as Hr.
      destruct r; [exact Hr|exact (proj1 Hr)].
    - intros c w r w1 Hl Hput. exact (proj2 (putconn_to_idle p m c w w1 r Hl Hput)).
    - intros c c1 w r w1 Hl Hcall. apply (leased_only_pools p m c w); [|done].
      pose proof (cursor_pools c1 w) as Hsame. simpl in Hcall.
      by rewrite Hcall in Hsame.
    - intros c c1 w r w1 Hl Hcall. apply (leased_only_pools p m c w); [|done].
      pose proof (commit_pools c1 w) as Hsame. simpl in Hcall.
      by rewrite Hcall in Hsame.
    - intros c c1 w r w1 Hl Hcall. apply (leased_only_pools p m c w); [|done].
      pose proof (rollback_pools c1 w) as Hsame. simpl in Hcall.
      by rewrite Hcall in Hsame.
    - intros c k query params w r w1 Hl Hcall.
      apply (leased_only_pools p m c w); [|done].
      pose proof (execute_pools k query params w) as Hsame. simpl in Hcall.
      by rewrite Hcall in Hsame.
    - intros c k w r w1 Hl Hcall. apply (leased_only_pools p m c w); [|done].
      pose proof (fetchall_pools k w) as Hsame. simpl in Hcall.
      by rewrite Hcall in Hsame.
    - intros c k w r w1 Hl Hcall. apply (leased_only_pools p m c w); [|done].
      pose proof (cursor_close_pools k w) as Hsame. simpl in Hcall.
      by rewrite Hcall in Hsame. }
  assert (_pool (self st1) = Some p) as Hpool1.
  { unfold st1. by destruct (serve_all_extends rqs st) as [-> _]. }
  pose proof (Hkeeps rqs st Hpool Hidle) as Hidle1. fold st1 in Hidle1.
  split; [exact Hidle1|]. split.
  - exact (Hkeeps [rq] st1 Hpool1 Hidle1).
  - destruct (serve_getconn_once p rq st1 Hpool1) as (r & w & tr & Hget & Hev & Honce).
    exists r, w, tr. split; [exact Hget|]. split; [exact Hev|]. split; [exact Honce|].
    pose proof (getconn_from_idle p m (world st1) w r Hm Hidle1 Hget) as Hr.
    destruct r; [done|exact (proj2 Hr)].
Qed.

(** The laws of a pool that keeps count, on the reference pool. *)
Lemma getconn_leases_or_stays_idle (p : nat) (m : Z) :
  (0 < m)%Z →
  ∀ w r w1, pool_idle p m w → pool_getconn p w = (r, w1) →
    match r with
    | Return c => pool_leased p m c w1
    | Raise _ => pool_idle p m w1
    end.
Proof.
  intros Hm w r w1 Hi Hget.
  pose proof (getconn_from_idle p m w w1 r Hm Hi Hget) as Hr.
  destruct r; [exact Hr|exact (proj1 Hr)].
Qed.

Lemma cursor_keeps_lease (p : nat) (m : Z) (c c1 : nat) (w : RefWorld)
    (r : result nat) (w1 : RefWorld) :
  pool_leased p m c w → conn_cursor c1 w = (r, w1) → pool_leased p m c w1.
Proof.
  intros Hl Hcall. apply (leased_only_pools p m c w); [|done].
  pose proof (cursor_pools c1 w) as Hsame. simpl in Hcall.
  by rewrite Hcall in Hsame.
Qed.

Lemma commit_keeps_lease (p : nat) (m : Z) (c c1 : nat) (w : RefWorld)
    (r : result unit) (w1 : RefWorld) :
  pool_leased p m c w → conn_commit c1 w = (r, w1) → pool_leased p m c w1.
Proof.
  intros Hl Hcall. apply (leased_only_pools p m c w); [|done].
  pose proof (commit_pools c1 w) as Hsame. simpl in Hcall.
  by rewrite Hcall in Hsame.
Qed.

Lemma rollback_keeps_lease (p : nat) (m : Z) (c c1 : nat) (w : RefWorld)
    (r : result unit) (w1 : RefWorld) :
  pool_leased p m c w → conn_rollback c1 w = (r, w1) → pool_leased p m c w1.
Proof.
  intros Hl Hcall. apply (leased_only_pools p m c w); [|done].
  pose proof (rollback_pools c1 w) as Hsame. simpl in Hcall.
  by rewrite Hcall in Hsame.
Qed.

Lemma execute_keeps_lease (p : nat) (m : Z) (c k : nat) (query : string)
    (params : option (list PyVal)) (w : RefWorld) (r : result unit)
    (w1 : RefWorld) :
  pool_leased p m c w → cursor_execute k query params w = (r, w1) →
  pool_leased p m c w1.
Proof.
  intros Hl Hcall. apply (leased_only_pools p m c w); [|done].
  pose proof (execute_pools k query params w) as Hsame. simpl in Hcall.
  by rewrite Hcall in Hsame.
Qed.

Lemma fetchall_keeps_lease (p : nat) (m : Z) (c k : nat) (w : RefWorld)
    (r : result (list Row)) (w1 : RefWorld) :
  pool_leased p m c w → cursor_fetchall k w = (r, w1) → pool_leased p m c w1.
Proof.
  intros Hl Hcall. apply (leased_only_pools p m c w); [|done].
  pose proof (fetchall_pools k w) as Hsame. simpl in Hcall.
  by rewrite Hcall in Hsame.
Qed.

Lemma close_keeps_lease (p : nat) (m : Z) (c k : nat) (w : RefWorld)
    (r : result unit) (w1 : RefWorld) :
  pool_leased p m c w → cursor_close k w = (r, w1) → pool_leased p m c w1.
Proof.
  intros Hl Hcall. apply (leased_only_pools p m c w); [|done].
  pose proof (cursor_close_pools k w) as Hsame. simpl in Hcall.
  by rewrite Hcall in Hsame.
Qed.

(** C3: on every exit path of [execute_query] and [execute_non_query],
    whatever the driver, the events are the calls made on it, a connection
    obtained from the pool is handed to the pool's [putconn] once, as the last
    call of all, and a cursor that was opened is closed once.  On psycopg2's
    pool this [putconn] returns and leaves no connection out: after any
    number of sequential calls, returning or raising, the pool is idle again,
    and the next call, on a pool of maximum size 1 too, obtains a connection
    or passes on the refusal of the server to open one; it never finds the
    pool exhausted. *)
Theorem C3_connection_returned_exactly_once :
  (∀ (World Pool Conn Cursor : Type) (drv : Driver World Pool Conn Cursor)
     (rq : Request) (st : @State World Pool Conn Cursor),
     let st1 := snd (serve rq st) in
     let tr := new_events st st1 in
     driver_run tr (world st) (world st1) ∧
     (∀ p c, EvGetconn p (Return c) ∈ tr →
        ∃ pre rp w1,
          tr = pre ++ [EvPutconn p c rp] ∧
          filter is_putconn pre = [] ∧
          driver_run pre (world st) w1 ∧
          pool_putconn p c w1 = (rp, world st1)) ∧
     (∀ c k, EvCursor c (Return k) ∈ tr →
        ∃ r, filter is_cursor_close tr = [EvCursorClose k r]) ∧
     length (filter is_putconn tr) = length (filter is_getconn_ok tr) ∧
     length (filter is_cursor_close tr) = length (filter is_cursor_ok tr)) ∧
  (∀ (p : nat) (m : Z) (st : @State RefWorld nat nat nat)
     (rqs : list Request) (rq : Request),
     (0 < m)%Z → _pool (self st) = Some p → pool_idle p m (world st) →
     let st1 := serve_all rqs st in
     let st2 := snd (serve rq st1) in
     pool_idle p m (world st1) ∧
     pool_idle p m (world st2) ∧
     ∃ r w tr,
       getconn_ p (world st1) = (r, w) ∧
       new_events st1 st2 = EvGetconn p r :: tr ∧
       forallb (λ ev, negb (is_getconn ev)) tr = true ∧
       match r with
       | Return c =>
           ∃ pre w1,
             tr = pre ++ [EvPutconn p c (Return ())] ∧
             pool_leased p m c w1 ∧
             putconn_ p c w1 = (Return (), world st2)
       | Raise e =>
           tr = [] ∧
           ∃ ps, pools (world st1) !! p = Some ps ∧
                 fst (connect (p_args ps) (world st1)) = Raise e
       end).
Proof.
  split; [intros; apply serve_releases_once|].
  intros p m st rqs rq Hm Hpool Hidle st1 st2.
  destruct (sequential_calls_find_the_pool_idle p m st rqs rq Hm Hpool Hidle)
    as (Hidle1 & Hidle2 & r & w & tr & Hget & Hev & Honce & Hr).
  fold st1 in Hidle1, Hidle2, Hget, Hev, Hr. fold st2 in Hidle2, Hev.
  assert (_pool (self st1) = Some p) as Hpool1.
  { unfold st1. by destruct (serve_all_extends rqs st) as [-> _]. }
  split; [exact Hidle1|]. split; [exact Hidle2|].
  exists r, w, tr. split; [exact Hget|]. split; [exact Hev|].
  split; [exact Honce|]. destruct r as [c|e].
  - destruct (serve_putconn_leased p (pool_idle p m) (pool_leased p m)
                (getconn_leases_or_stays_idle p m Hm)
                (cursor_keeps_lease p m) (commit_keeps_lease p m)
                (rollback_keeps_lease p m) (execute_keeps_lease p m)
                (fetchall_keeps_lease p m) (close_keeps_lease p m)
                rq st1 c Hpool1 Hidle1)
      as (pre & rp & w1 & Htr & Hleased & Hput).
    { fold st2. rewrite Hev. apply list_elem_of_here. }
    fold st2 in Htr, Hput.
    destruct (putconn_to_idle p m c w1 (world st2) rp Hleased Hput) as [-> _].
    rewrite Hev in Htr. destruct pre as [|ev pre]; [discriminate Htr|].
    injection Htr as _ ->. by exists pre, w1.
  - split; [|exact Hr].
    pose proof (serve_getconn_refused rq st1 p e w Hpool1 Hget) as Hserve.
    unfold st2 in Hev. rewrite Hserve in Hev. simpl in Hev.
    rewrite new_events_app in Hev. by injection Hev as <-.
Qed.

(** A pool that [closeall] has gone through is closed, whether it was open
    or closed before, and refuses every [getconn]. *)
Lemma foldr_conn_close_pools (cs : list nat) (w : RefWorld) :
  pools (foldr conn_close w cs) = pools w.
Proof. by induction cs. Qed.

Lemma closeall_closes (p : nat) (w : RefWorld) :
  is_Some (pools w !! p) → pool_closed p (snd (closeall_ p w)).
Proof.
  intros [ps Hps]. unfold closeall_. rewrite Hps.
  destruct (p_closed ps) eqn:Hclosed; simpl; [by exists ps|].
  eexists. split; [|].
  - apply (put_pool_lookup p ps). by rewrite foldr_conn_close_pools.
  - reflexivity.
Qed.

Lemma getconn_closed (p : nat) (w : RefWorld) :
  pool_closed p w →
  getconn_ p w = (Raise (PoolError "connection pool is closed"), w).
Proof. intros (ps & Hps & Hclosed). unfold getconn_. by rewrite Hps, Hclosed. Qed.

Lemma serve_on_closed_pool (p : nat) (rq : Request)
    (st : @State RefWorld nat nat nat) :
  _pool (self st) = Some p → pool_closed p (world st) →
  serve rq st =
    (Some (PoolError "connection pool is closed"),
     {| self := self st; world := world st;
        trace := trace st ++
          [EvGetconn p (Raise (PoolError "connection pool is closed"))] |}).
Proof.
  intros Hpool Hclosed. apply serve_getconn_refused; [done|].
  by apply getconn_closed.
Qed.

Lemma serve_all_on_closed_pool (p : nat) (rqs : list Request)
    (st : @State RefWorld nat nat nat) :
  _pool (self st) = Some p → pool_closed p (world st) →
  world (serve_all rqs st) = world st.
Proof.
  revert st. induction rqs as [|rq rqs IH]; intros st Hpool Hclosed; [done|].
  simpl. rewrite (serve_on_closed_pool p rq st Hpool Hclosed). simpl.
  by rewrite IH.
Qed.

(** C2, as the code has it: [close] calls the pool's [closeall] and the
    object keeps its pool reference and has no closed flag of its own, so
    every later call starts by asking that pool for a connection, whatever
    the driver; when the pool refuses, the call raises the pool's error
    unchanged and calls nothing else.  psycopg2's pool refuses: after
    [close], every call raises its [PoolError], having called [getconn] and
    nothing else, and the pool stays closed. *)
Theorem C2_execute_after_close_fails_at_the_pool :
  (∀ (World Pool Conn Cursor : Type) (drv : Driver World Pool Conn Cursor)
     (st : @State World Pool Conn Cursor) (p : Pool)
     (rqs : list Request) (rq : Request),
     _pool (self st) = Some p →
     let st1 := serve_all rqs (snd (close st)) in
     (∃ rc w0, pool_closeall p (world st) = (rc, w0) ∧
               fst (close st) = rc ∧ world (snd (close st)) = w0) ∧
     _pool (self st1) = Some p ∧
     ∃ r w tr,
       pool_getconn p (world st1) = (r, w) ∧
       new_events st1 (snd (serve rq st1)) = EvGetconn p r :: tr ∧
       ∀ e, r = Raise e →
         fst (serve rq st1) = Some e ∧ tr = [] ∧
         world (snd (serve rq st1)) = w) ∧
  (∀ (st : @State RefWorld nat nat nat) (p : nat)
     (rqs : list Request) (rq : Request),
     _pool (self st) = Some p → is_Some (pools (world st) !! p) →
     let st1 := serve_all rqs (snd (close st)) in
     pool_closed p (world st1) ∧
     fst (serve rq st1) = Some (PoolError "connection pool is closed") ∧
     new_events st1 (snd (serve rq st1)) =
       [EvGetconn p (Raise (PoolError "connection pool is closed"))] ∧
     world (snd (serve rq st1)) = world st1).
Proof.
  split; [intros; by apply execute_after_close_asks_the_pool|].
  intros st p rqs rq Hpool Hsome st1.
  assert (pool_closed p (world (snd (close st)))) as Hclosed.
  { unfold close. rewrite Hpool. unfold call, log, mbind, M_bind; simpl.
    pose proof (closeall_closes p (world st) Hsome) as Hc.
    by destruct (closeall_ p (world st)) as [[[]|e] w0]. }
  assert (_pool (self (snd (close st))) = Some p) as Hpool0
    by (by rewrite close_keeps_self).
  assert (_pool (self st1) = Some p) as Hpool1.
  { unfold st1. by destruct (serve_all_extends rqs (snd (close st))) as [-> _]. }
  assert (pool_closed p (world st1)) as Hclosed1.
  { unfold st1. by rewrite (serve_all_on_closed_pool p rqs _ Hpool0 Hclosed). }
  split; [exact Hclosed1|].
  rewrite (serve_on_closed_pool p rq st1 Hpool1 Hclosed1). simpl.
  by rewrite new_events_app.
Qed.

(** C7: for every valid configuration, constructing the client opens
    exactly [minconn] connections, all live and idle in the pool, no more and
    no fewer; [minconn] is 1 and [maxconn] is 10 when the configuration does
    not give them. *)
Theorem C7_constructor_opens_minconn_connections (w : RefWorld)
    (cfg : gmap string PyVal) (minconn maxconn : option Z)
    (dbname user password host port : PyVal) :
  cfg !! "minconn" = VInt <$> minconn →
  cfg !! "maxconn" = VInt <$> maxconn →
  cfg !! "dbname" = Some dbname →
  cfg !! "user" = Some user →
  cfg !! "password" = Some password →
  cfg !! "host" = Some host →
  cfg !! "port" = Some port →
  (0 ≤ default 1%Z minconn)%Z →
  srv_connect (server w) dbname user password host port = None →
  let n := Z.to_nat (default 1%Z minconn) in
  ∃ db st ps,
    DB_new cfg w = (Return db, st) ∧
    _pool db = Some (length (pools w)) ∧
    pools (world st) !! length (pools w) = Some ps ∧
    p_minconn ps = default 1%Z minconn ∧
    p_maxconn ps = default 10%Z maxconn ∧
    p_closed ps = false ∧
    p_used ps = ∅ ∧
    p_pool ps = seq (length (conns w)) n ∧
    length (p_pool ps) = n ∧
    conns (world st) = conns w ++ replicate n fresh_conn ∧
    length (conns (world st)) = length (conns w) + n.
Proof.
  intros Hmin Hmax Hdb Huser Hpw Hhost Hport Hge Hok n.
  unfold DB_new, __init__, _initialize_connection_pool, _setup_logging,
    set_db_config, set_pool, set_logger, get_db_config, subscript,
    try_except, call, log, raise, mbind, M_bind, mret, M_ret; simpl.
  rewrite Hmin, Hmax, Hdb, Huser, Hpw, Hhost, Hport; simpl.
  unfold new_pool.
  assert (to_int (default (VInt 1) (VInt <$> minconn)) = Return (default 1%Z minconn))
    as -> by (by destruct minconn).
  assert (to_int (default (VInt 10) (VInt <$> maxconn)) = Return (default 10%Z maxconn))
    as -> by (by destruct maxconn).
  rewrite connect_n_accepted by done. simpl.
  eexists _, _, _. split; [reflexivity|]. simpl.
  split; [done|]. split; [apply list_lookup_middle; done|]. simpl.
  repeat split; try done.
  - by rewrite length_seq.
  - by rewrite length_app, length_replicate.
Qed.

Lemma C7_witness :
  ∃ db st ps,
    DB_new Scenario.bare_config Scenario.boot = (Return db, st) ∧
    pools (world st) !! 0 = Some ps ∧
    p_maxconn ps = 10%Z ∧
    p_pool ps = [0] ∧
    conns (world st) = [fresh_conn].
Proof.
  destruct (C7_constructor_opens_minconn_connections
              Scenario.boot Scenario.bare_config None None
              (VStr "chinook") (VStr "postgres") (VStr "postgres")
              (VStr "localhost") (VStr "5432"))
    as (db & st & ps & Hnew & _ & Hps & _ & Hmax & _ & _ & Hidle & _ & Hconns & _);
    [reflexivity|reflexivity|reflexivity|reflexivity|reflexivity|reflexivity
    |reflexivity|simpl; lia|reflexivity|].
  exists db, st, ps. repeat split; assumption.
Defined.

End Psycopg2Facts.

(** * Runs against the example database *)
Module Runs.
Import Psycopg2 Scenario.

(** The client of the example run is ready: one idle connection. *)
Example ready_pool :
  _pool (self ready) = Some 0 ∧
  (p_pool <$> pools (world ready)) = [[0]] ∧
  conns (world ready) = [fresh_conn].
Proof. vm_compute. repeat split; reflexivity. Qed.

(** [SELECT 1 AS x] gives one row, [x] to 1. *)
Example select_one_row :
  fst (execute_query select_one None ready) = Return [{[ "x" := VInt 1 ]}].
Proof. vm_compute. repeat split; reflexivity. Qed.

(** Four calls in sequence on a pool of one connection at most, two of them
    raising: every call obtains the connection. *)
Example single_connection_reused :
  filter is_getconn_ok
    (new_events single
       (serve_all [ExecuteQuery select_one None; ExecuteQuery malformed None;
                   ExecuteNonQuery insert_orphan None;
                   ExecuteQuery select_one None] single)) =
  [EvGetconn 0 (Return 0); EvGetconn 0 (Return 0);
   EvGetconn 0 (Return 0); EvGetconn 0 (Return 0)].
Proof. vm_compute. reflexivity. Qed.

(** The client on a pool of one connection at most starts with the pool
    idle; so does every call after it, whatever the calls before did. *)
Example single_pool_idle : pool_idle 0 1 (world single).
Proof. vm_compute. eexists. repeat split; reflexivity. Qed.

Example single_pool_never_exhausted (rqs : list Request) (rq : Request) :
  pool_idle 0 1 (world (serve_all rqs single)) ∧
  pool_idle 0 1 (world (snd (serve rq (serve_all rqs single)))).
Proof.
  assert (_pool (self single) = Some 0) as Hpool by (vm_compute; reflexivity).
  destruct (Psycopg2Facts.sequential_calls_find_the_pool_idle 0 1 single rqs rq
              ltac:(lia) Hpool single_pool_idle) as (Hbefore & Hafter & _).
  split; [exact Hbefore|exact Hafter].
Qed.

(** C1 fails as stated: a malformed statement makes the server raise a
    syntax error, the statement is rolled back, and the call raises that
    very exception, which is not a [QueryExecutionError]. *)
Lemma C1_counterexample :
  let r := fst (execute_query malformed None ready) in
  EvExecute 0 malformed None (Raise SyntaxError)
    ∈ new_events ready (snd (execute_query malformed None ready)) ∧
  r = Raise SyntaxError ∧
  ¬ ∃ e, r = Raise e ∧ exn_class e = "QueryExecutionError".
Proof.
  vm_compute. split; [present|]. split; [reflexivity|].
  intros (e & [= <-] & Hclass). discriminate Hclass.
Qed.

Lemma C1_witness :
  EvExecute 0 malformed None (Raise SyntaxError)
    ∈ new_events ready (snd (execute_query malformed None ready)) ∧
  is_Some (raised (fst (execute_query malformed None ready))).
Proof.
  assert (EvExecute 0 malformed None (Raise SyntaxError)
            ∈ new_events ready (snd (execute_query malformed None ready))) as Hin
    by (vm_compute; present).
  split; [exact Hin|].
  destruct (proj1 (C1_failed_statement_rolled_back_and_reraised
                     (drv := driver) malformed None ready 0 SyntaxError) Hin)
    as (p & c & rr & rc & rp & w1 & w2 & w3 & w4 & w5
        & _ & _ & _ & _ & _ & _ & _ & _ & Hraised & _).
  exact Hraised.
Defined.

(** C2 fails as stated: after [close], a call still goes to the closed pool
    for a connection and raises the pool's [PoolError], not a
    [PoolClosedError]. *)
Lemma C2_counterexample :
  let st1 := snd (close ready) in
  let r := fst (execute_query select_one None st1) in
  fst (close ready) = Return () ∧
  new_events st1 (snd (execute_query select_one None st1)) =
    [EvGetconn 0 (Raise (PoolError "connection pool is closed"))] ∧
  r = Raise (PoolError "connection pool is closed") ∧
  ¬ ∃ e, r = Raise e ∧ exn_class e = "PoolClosedError".
Proof.
  vm_compute. split; [reflexivity|]. split; [reflexivity|]. split; [reflexivity|].
  intros (e & [= <-] & Hclass). discriminate Hclass.
Qed.

Lemma C2_witness :
  fst (serve (ExecuteNonQuery insert_row None)
         (serve_all [ExecuteQuery select_one None] (snd (close ready)))) =
    Some (PoolError "connection pool is closed").
Proof.
  assert (_pool (self ready) = Some 0) as Hpool by (vm_compute; reflexivity).
  assert (is_Some (pools (world ready) !! 0)) as Hsome
    by (vm_compute; eexists; reflexivity).
  exact (proj1 (proj2 (proj2 Psycopg2Facts.C2_execute_after_close_fails_at_the_pool
                         ready 0 [ExecuteQuery select_one None]
                         (ExecuteNonQuery insert_row None) Hpool Hsome))).
Defined.

(** C4 fails as stated: the second [close] calls [closeall] on the pool the
    first one closed, and psycopg2's pool answers with a [PoolError]. *)
Lemma C4_counterexample :
  let st1 := snd (close ready) in
  fst (close ready) = Return () ∧
  fst (close st1) = Raise (PoolError "connection pool is closed") ∧
  new_events st1 (snd (close st1)) =
    [EvCloseall 0 (Raise (PoolError "connection pool is closed"))].
Proof. vm_compute. repeat split; reflexivity. Qed.

Lemma C4_witness :
  _pool (self ready) = Some 0 ∧
  ∃ r2 w2,
    pool_closeall 0 (world (snd (close ready))) = (r2, w2) ∧
    fst (close (snd (close ready))) = r2.
Proof.
  assert (_pool (self ready) = Some 0) as Hpool by (vm_compute; reflexivity).
  split; [exact Hpool|].
  destruct (proj1 (proj2 (C4_close_calls_closeall_each_time (drv := driver) ready))
              0 Hpool) as (r2 & w2 & Hcall & Hres & _).
  exists r2, w2. split; [exact Hcall|exact Hres].
Defined.

(** C5 fails on a result set without columns: [SELECT] alone returns one
    row, [cursor.description] is the empty tuple, which is false, and
    [fetchall] is skipped: the call commits and returns no row. *)
Theorem C5_rows_without_columns_are_dropped :
  srv_run chinook select_nothing None = StmtRows [] [[]] ∧
  fst (execute_query select_nothing None ready) = Return [] ∧
  new_events ready (snd (execute_query select_nothing None ready)) =
    [EvGetconn 0 (Return 0); EvCursor 0 (Return 0);
     EvLog INFO "Executing query: SELECT";
     EvExecute 0 select_nothing None (Return ());
     EvCommit 0 (Return ()); EvCursorClose 0 (Return ());
     EvPutconn 0 0 (Return ())].
Proof. vm_compute. repeat split; reflexivity. Qed.

(** C6 fails as stated: with a rejected password the constructor raises the
    driver's [OperationalError], not a [ConnectionPoolInitError]. *)
Lemma C6_counterexample :
  let r := fst (DB_new bad_config boot) in
  r = Raise OperationalError ∧
  ¬ ∃ e, r = Raise e ∧ exn_class e = "ConnectionPoolInitError".
Proof.
  vm_compute. split; [reflexivity|].
  intros (e & [= <-] & Hclass). discriminate Hclass.
Qed.

Lemma C6_witness :
  pool_new (default (VInt 1) (bad_config !! "minconn"))
    (default (VInt 10) (bad_config !! "maxconn"))
    (VStr "chinook") (VStr "postgres") (VStr "guess")
    (VStr "localhost") (VStr "5432") boot = (Raise OperationalError, boot) ∧
  fst (DB_new bad_config boot) = Raise OperationalError.
Proof.
  assert (pool_new (default (VInt 1) (bad_config !! "minconn"))
            (default (VInt 10) (bad_config !! "maxconn"))
            (VStr "chinook") (VStr "postgres") (VStr "guess")
            (VStr "localhost") (VStr "5432") boot
          = (Raise OperationalError, boot)) as Hnew by (vm_compute; reflexivity).
  assert (bad_config !! "dbname" = Some (VStr "chinook")) as Hdb
    by (vm_compute; reflexivity).
  assert (bad_config !! "user" = Some (VStr "postgres")) as Huser
    by (vm_compute; reflexivity).
  assert (bad_config !! "password" = Some (VStr "guess")) as Hpw
    by (vm_compute; reflexivity).
  assert (bad_config !! "host" = Some (VStr "localhost")) as Hhost
    by (vm_compute; reflexivity).
  assert (bad_config !! "port" = Some (VStr "5432")) as Hport
    by (vm_compute; reflexivity).
  split; [exact Hnew|].
  rewrite (proj2 (proj2 (C6_construction_all_or_nothing (drv := driver) bad_config boot))
             (VStr "chinook") (VStr "postgres") (VStr "guess")
             (VStr "localhost") (VStr "5432") OperationalError boot
             Hdb Huser Hpw Hhost Hport Hnew).
  reflexivity.
Defined.



Lemma C3_witness :
  let st1 := serve_all [ExecuteQuery malformed None;
                        ExecuteNonQuery insert_orphan None] single in
  pool_idle 0 1 (world st1) ∧
  pool_idle 0 1 (world (snd (serve (ExecuteQuery select_one None) st1))).
Proof.
  assert (_pool (self single) = Some 0) as Hpool by (vm_compute; reflexivity).
  assert (pool_idle 0 1 (world single)) as Hidle
    by (vm_compute; eexists; repeat split; reflexivity).
  destruct (proj2 Psycopg2Facts.C3_connection_returned_exactly_once 0 1%Z single
              [ExecuteQuery malformed None; ExecuteNonQuery insert_orphan None]
              (ExecuteQuery select_one None) ltac:(lia) Hpool Hidle)
    as (Hbefore & Hafter & _).
  split; [exact Hbefore|exact Hafter].
Defined.

Lemma C8_witness :
  EvCursor 0 (Return 0)
    ∈ new_events ready (snd (serve (ExecuteNonQuery insert_row None) ready)) ∧
  ∃ pre p rc rp w1 w2,
    new_events ready (snd (serve (ExecuteNonQuery insert_row None) ready)) =
      pre ++ [EvCursorClose 0 rc; EvPutconn p 0 rp] ∧
    driver_run pre (world ready) w1 ∧
    cursor_close 0 w1 = (rc, w2) ∧
    pool_putconn p 0 w2 =
      (rp, world (snd (serve (ExecuteNonQuery insert_row None) ready))).
Proof.
  assert (EvCursor 0 (Return 0)
            ∈ new_events ready (snd (serve (ExecuteNonQuery insert_row None) ready)))
    as Hin by (vm_compute; present).
  split; [exact Hin|].
  exact (proj2 (proj2 (C8_cursor_closed_before_putconn (drv := driver)
                         (ExecuteNonQuery insert_row None) ready)) 0 0 Hin).
Defined.

End Runs.


(** * More runs, and the other scripts *)

(** Reads a membership in an explicit list one element at a time. *)
Ltac one_of H :=
  repeat first
    [ apply elem_of_nil in H; destruct H
    | apply elem_of_cons in H; destruct H as [H|H];
      [ first [ discriminate H | injection H as ?; subst | subst ] | ] ].

Module MoreRuns.
Import Psycopg2.

#[local] Abbreviation ready := Scenario.ready.
#[local] Abbreviation select_one := Scenario.select_one.
#[local] Abbreviation insert_row := Scenario.insert_row.

(** The configuration of the scenario without its password. *)
Lemma DB_new_missing_entry_witness :
  DB_new (delete "password" Scenario.db_config) Scenario.boot =
    (Raise (KeyError "password"),
     {| self := {| db_config := delete "password" Scenario.db_config;
                   _pool := None; logger := "DB" |};
        world := Scenario.boot;
        trace := [EvLog ERROR ("Failed to initialize connection pool: "
                               +:+ exn_msg (KeyError "password"))] |}).
Proof.
  apply (DB_new_missing_entry (drv := driver)
           (delete "password" Scenario.db_config) Scenario.boot
           ["dbname"; "user"] "password" ["host"; "port"]).
  - reflexivity.
  - repeat constructor; eexists; vm_compute; reflexivity.
  - vm_compute. reflexivity.
Defined.

(** An entry the constructor does not read changes nothing. *)
Lemma DB_new_reads_seven_entries_witness :
  trace (DB_new Scenario.db_config Scenario.boot).2 =
  trace (DB_new (<["sslmode" := VStr "require"]> Scenario.db_config)
           Scenario.boot).2.
Proof.
  apply (DB_new_reads_seven_entries (drv := driver) Scenario.db_config
           (<["sslmode" := VStr "require"]> Scenario.db_config) Scenario.boot).
  intros k Hin.
  repeat (apply elem_of_cons in Hin as [->|Hin]; [vm_compute; reflexivity|]).
  by apply elem_of_nil in Hin.
Defined.

(** The rows of [SELECT 1 AS x] on the first connection of the pool. *)
Lemma execute_query_result_witness :
  let w1 := (pool_getconn 0 (world ready)).2 in
  let w2 := (conn_cursor 0 w1).2 in
  let w3 := (cursor_execute 0 select_one None w2).2 in
  (∃ w4, cursor_fetchall 0 w3 = (Return [{[ "x" := VInt 1 ]}], w4)) ∧
  filter is_fetchall (new_events ready (execute_query select_one None ready).2) =
    [EvFetchall 0 (Return [{[ "x" := VInt 1 ]}])].
Proof.
  intros w1 w2 w3.
  assert (description_truthy (cursor_description 0 w3) = true) as Htruthy
    by (vm_compute; reflexivity).
  pose proof (execute_query_result (drv := driver) select_one None ready
                0 0 0 () w1 w2 w3 [{[ "x" := VInt 1 ]}]) as Hthm.
  rewrite Htruthy in Hthm. apply Hthm; vm_compute; reflexivity.
Defined.

(** A query that returns: one commit, no rollback. *)
Lemma execute_query_commit_or_rollback_witness :
  (execute_query select_one None ready).1 = Return [{[ "x" := VInt 1 ]}] ∧
  ∃ c v,
    filter is_commit
      (new_events ready (execute_query select_one None ready).2) =
      [EvCommit c (Return v)] ∧
    filter is_rollback
      (new_events ready (execute_query select_one None ready).2) = [].
Proof.
  assert ((execute_query select_one None ready).1 =
          Return [{[ "x" := VInt 1 ]}]) as Hret by (vm_compute; reflexivity).
  split; [exact Hret|].
  exact (proj2 (proj2 (proj2 (proj2
           (execute_query_commit_or_rollback (drv := driver)
              select_one None ready)))) _ Hret).
Defined.

(** A statement that returns: one commit, no rollback. *)
Lemma execute_non_query_discipline_witness :
  (execute_non_query insert_row None ready).1 = Return () ∧
  ∃ c v,
    filter is_commit
      (new_events ready (execute_non_query insert_row None ready).2) =
      [EvCommit c (Return v)] ∧
    filter is_rollback
      (new_events ready (execute_non_query insert_row None ready).2) = [].
Proof.
  assert ((execute_non_query insert_row None ready).1 = Return ()) as Hret
    by (vm_compute; reflexivity).
  split; [exact Hret|].
  exact (proj2 (proj2 (proj2 (proj2
           (execute_non_query_discipline (drv := driver)
              insert_row None ready)))) Hret).
Defined.

End MoreRuns.

Module AssistantFacts.
Import Assistant.

Lemma append_cons (c : Ascii.ascii) (a b : string) :
  String c a +:+ b = String c (a +:+ b).
Proof. reflexivity. Qed.

Lemma append_nil_l (s : string) : "" +:+ s = s.
Proof. reflexivity. Qed.

Lemma append_assoc (a b c : string) : (a +:+ b) +:+ c = a +:+ b +:+ c.
Proof.
  induction a as [|x a IH]; [done|]. rewrite !append_cons. by f_equal.
Qed.

Lemma prefix_iff (needle s : string) :
  String.prefix needle s = true ↔ ∃ behind, s = needle +:+ behind.
Proof.
  revert s. induction needle as [|c needle IH]; intros s; simpl.
  - destruct s; split; eauto.
  - destruct s as [|d s]; simpl.
    + split; [done|]. intros (? & ?). discriminate.
    + destruct (Ascii.ascii_dec c d) as [->|Hne].
      * rewrite IH. split.
        -- intros (behind & ->). by exists behind.
        -- intros (behind & Heq). rewrite append_cons in Heq.
           injection Heq as ->. by exists behind.
      * split; [done|]. intros (behind & Heq). rewrite append_cons in Heq.
        by injection Heq as -> ->.
Qed.

Lemma contains_nil (needle : string) :
  contains needle "" = String.prefix needle "" || false.
Proof. reflexivity. Qed.

Lemma contains_cons (needle : string) (c : Ascii.ascii) (s : string) :
  contains needle (String c s) =
  String.prefix needle (String c s) || contains needle s.
Proof. reflexivity. Qed.

(** [in] is the occurrence of the word somewhere in the input. *)
Lemma contains_iff (needle s : string) :
  contains needle s = true ↔ occurs needle s.
Proof.
  unfold occurs. induction s as [|c s IH].
  - rewrite contains_nil, orb_false_r, prefix_iff. split.
    + intros (behind & ->). by exists "", behind.
    + intros (before & behind & Heq). destruct before.
      * rewrite append_nil_l in Heq. by exists behind.
      * rewrite append_cons in Heq. discriminate.
  - rewrite contains_cons, orb_true_iff, prefix_iff, IH. split.
    + intros [(behind & ->)|(before & behind & ->)].
      * by exists "", behind.
      * by exists (String c before), behind.
    + intros (before & behind & Heq). destruct before as [|d before].
      * left. rewrite append_nil_l in Heq. by exists behind.
      * right. rewrite append_cons in Heq. injection Heq as -> ->.
        by exists before, behind.
Qed.

Lemma occurs_pad (needle s before behind : string) :
  occurs needle s → occurs needle (before +:+ s +:+ behind).
Proof.
  intros (a & b & ->). exists (before +:+ a), (b +:+ behind).
  by rewrite !append_assoc.
Qed.

(** The branch of an input is decided by the first of the three words that
    occurs in it, in the order recommend, book, itinerary. *)
Theorem decide_branch_by_priority (user_input : string) :
  (decide_branch user_input = "destination" ↔ occurs "recommend" user_input) ∧
  (decide_branch user_input = "hotel" ↔
     ¬ occurs "recommend" user_input ∧ occurs "book" user_input) ∧
  (decide_branch user_input = "itinerary" ↔
     ¬ occurs "recommend" user_input ∧ ¬ occurs "book" user_input ∧
     occurs "itinerary" user_input) ∧
  (decide_branch user_input = "default" ↔
     ¬ occurs "recommend" user_input ∧ ¬ occurs "book" user_input ∧
     ¬ occurs "itinerary" user_input).
Proof.
  unfold decide_branch. rewrite <- !contains_iff.
  destruct (contains "recommend" user_input),
           (contains "book" user_input),
           (contains "itinerary" user_input);
    repeat split; try done; try (intros [? ?]; done);
    try (intros (? & ? & ?); done).
Qed.

(** Whatever the input, its branch is a key of [execution_logic], whose
    entry holds one tool, or none for the default branch. *)
Theorem decide_branch_in_execution_logic (user_input : string) :
  ∃ branch,
    execution_logic !! decide_branch user_input = Some branch ∧
    (length (tools branch) ≤ 1)%nat ∧
    (tools branch = [] ↔ decide_branch user_input = "default").
Proof.
  unfold decide_branch.
  destruct (contains "recommend" user_input);
    [|destruct (contains "book" user_input);
      [|destruct (contains "itinerary" user_input)]];
    (eexists; split; [vm_compute; reflexivity|]); simpl; split; try lia;
    split; intros; done.
Qed.

Lemma rank_destination : rank "destination" = 3.
Proof. reflexivity. Qed.

(** Text added before or after an input never lowers the priority of its
    branch. *)
Theorem decide_branch_padding (before user_input behind : string) :
  (rank (decide_branch user_input) ≤
   rank (decide_branch (before +:+ user_input +:+ behind)))%nat.
Proof.
  unfold decide_branch.
  destruct (contains "recommend" user_input) eqn:Hr.
  { apply contains_iff, (occurs_pad _ _ before behind), contains_iff in Hr.
    by rewrite Hr. }
  destruct (contains "recommend" (before +:+ user_input +:+ behind));
    [destruct (contains "book" user_input),
              (contains "itinerary" user_input); vm_compute; lia|].
  destruct (contains "book" user_input) eqn:Hb.
  { apply contains_iff, (occurs_pad _ _ before behind), contains_iff in Hb.
    by rewrite Hb. }
  destruct (contains "book" (before +:+ user_input +:+ behind));
    [destruct (contains "itinerary" user_input); vm_compute; lia|].
  destruct (contains "itinerary" user_input) eqn:Hi.
  { apply contains_iff, (occurs_pad _ _ before behind), contains_iff in Hi.
    by rewrite Hi. }
  destruct (contains "itinerary" (before +:+ user_input +:+ behind));
    vm_compute; lia.
Qed.

Lemma occurs_first_char (c : Ascii.ascii) (needle s : string) :
  occurs (String c needle) s → occurs (String c "") s.
Proof.
  intros (before & behind & ->). exists before, (needle +:+ behind).
  by rewrite !append_cons, append_nil_l.
Qed.

(** The words are looked for as they are written, in lower case: an input
    without the letters r, b and i takes the default branch, whatever
    else it holds, capital letters included. *)
Theorem decide_branch_case_sensitive (user_input : string) :
  ¬ occurs "r" user_input →
  ¬ occurs "b" user_input →
  ¬ occurs "i" user_input →
  decide_branch user_input = "default".
Proof.
  intros Hr Hb Hi. unfold decide_branch.
  destruct (contains "recommend" user_input) eqn:Hrecommend;
    [by apply contains_iff, occurs_first_char in Hrecommend|].
  destruct (contains "book" user_input) eqn:Hbook;
    [by apply contains_iff, occurs_first_char in Hbook|].
  destruct (contains "itinerary" user_input) eqn:Hitinerary;
    [by apply contains_iff, occurs_first_char in Hitinerary|].
  reflexivity.
Qed.

Lemma decide_branch_case_sensitive_witness :
  decide_branch "RECOMMEND A BEACH, BOOK A HOTEL" = "default".
Proof.
  apply decide_branch_case_sensitive;
    rewrite <- contains_iff; vm_compute; discriminate.
Defined.

Section ChatFacts.
Context {Agent : Type}.
Variable agent_run : string → Agent → result string * Agent.

Lemma asked_app (c1 c2 : list Console) : asked (c1 ++ c2) = asked c1 ++ asked c2.
Proof. apply omap_app. Qed.

Lemma printed_app (c1 c2 : list Console) :
  printed (c1 ++ c2) = printed c1 ++ printed c2.
Proof. apply omap_app. Qed.





End ChatFacts.


End AssistantFacts.

(** * The natural-language helper *)
Module DbLlmFacts.
Import DbLlm.

Section HelperFacts.
Context {W Db Llm Chain Prompt : Type} {lc : LangChain W Db Llm Chain Prompt}.

#[local] Abbreviation DBLLM := (@DBLLM Db Llm Prompt).
#[local] Abbreviation Step := (@Step Db Llm Chain Prompt).

Ltac unfold_helper :=
  unfold __init__, run_query, query_with_llm, close_connection, catch, perform,
    setting, first_of, mbind, Run_bind, mret, Run_ret; simpl.




Tactic Notation "no_failure" integer(n) :=
  let Hall := fresh "Hall" in
  let Hf := fresh "Hf" in
  intros Hall; do n apply Forall_cons in Hall as [_ Hall];
  apply Forall_cons in Hall as [Hf _]; discriminate Hf.


(** [run_query] and [close_connection] catch what derives from [Exception]
    and nothing else: a failure of the database comes back as a text, the
    word of the method before the message of the exception, and an exception
    outside [Exception] is raised as it is; the query is passed on once, as
    it is, and its answer returned unchanged. *)
Theorem run_query_and_close_outcome (self : DBLLM) (query : string)
    (t : W * list Step) :
  (∃ r w,
     db_run (db self) query t.1 = (r, w) ∧
     run_query self query t =
       (match r with
        | Return answer => Return answer
        | Raise e =>
            if is_Exception e
            then Return ("Error executing query: " +:+ exn_msg e)
            else Raise e
        end,
        (w, t.2 ++ [DbRun query r]))) ∧
  (∃ r w,
     engine_dispose (db self) t.1 = (r, w) ∧
     close_connection self t =
       (match r with
        | Return _ => Return "Database connection closed."
        | Raise e =>
            if is_Exception e
            then Return ("Error closing connection: " +:+ exn_msg e)
            else Raise e
        end,
        (w, t.2 ++ [Dispose r]))).
Proof.
  unfold_helper. split.
  - destruct (db_run _ _ _) as [[answer|e] w]; simpl;
      [|destruct (is_Exception e) eqn:He]; eexists _, _;
      (split; [reflexivity|]); simpl; by rewrite ?He.
  - destruct (engine_dispose _ _) as [[v|e] w]; simpl;
      [|destruct (is_Exception e) eqn:He]; eexists _, _;
      (split; [reflexivity|]); simpl; by rewrite ?He.
Qed.


End HelperFacts.

(** The failure of the database comes back as a text; the interrupt at the
    keyboard is raised. *)
Example error_text_and_interrupt :
  (run_query (lc := LlmScenario.interrupted) LlmScenario.helper
     "SELECT * FROM customer LIMIT 5;" ((), [])).1 =
    Return "Error executing query: server closed the connection unexpectedly" ∧
  (query_with_llm (lc := LlmScenario.interrupted) LlmScenario.helper
     "How many customers live in Brazil?" ((), [])).1 =
    Raise LlmScenario.KeyboardInterrupt.
Proof. vm_compute. split; reflexivity. Qed.

End DbLlmFacts.

(** * The graph database check *)
Module Neo4jCheckFacts.
Import Neo4jCheck.

Section CheckFacts.
Context {W Drv Session : Type} {gdb : GraphDb W Drv Session}.

#[local] Abbreviation Step := (@Step Drv Session).

(** The loop prints the messages of the records in order and stops, with a
    [KeyError], at the first record without one. *)
Lemma print_messages_steps (records : list Row) (t : W * list Step) :
  ∃ values,
    (print_messages records t).2 = (t.1, t.2 ++ (Printed <$> values)) ∧
    ((print_messages records t).1 = Return () ∧
     Forall (λ record : Row, is_Some (record !! "message")) records ∧
     values = omap (λ record : Row, record !! "message") records
     ∨
     (print_messages records t).1 = Raise (KeyError "message") ∧
     Exists (λ record : Row, record !! "message" = None) records).
Proof.
  revert t. induction records as [|record records IH]; intros t; simpl.
  - exists []. rewrite app_nil_r. split; [by destruct t|]. left. done.
  - destruct (record !! "message") as [v|] eqn:Hv.
    + destruct (IH (t.1, t.2 ++ [Printed v])) as (values & Hsteps & Hend).
      exists (v :: values). rewrite Hsteps. simpl. rewrite <- app_assoc.
      split; [done|].
      destruct Hend as [(Hret & Hall & ->)|(Hraise & Hex)].
      * left. split; [done|]. split; [by constructor|]. done.
      * right. split; [done|]. by apply Exists_cons_tl.
    + exists []. rewrite app_nil_r. split; [by destruct t|].
      right. split; [done|]. by apply Exists_cons_hd.
Qed.


Lemma printed_of_printed (values : list PyVal) :
  printed (Printed <$> values : list Step) = values.
Proof.
  induction values as [|v values IH]; [done|].
  change (v :: printed (Printed <$> values : list Step) = v :: values).
  by rewrite IH.
Qed.

(** The runs of the script: no driver or no session; a session, closed,
    and the script raising; or the whole check and the close of the driver. *)
Lemma script_shape (w : W) :
  let steps := (script w).2.2 in
  let r := (script w).1 in
  let url := getenv "DB_URI" (load_dotenv w) in
  let user := getenv "DB_USR" (load_dotenv w) in
  let pwd := getenv "DB_PWD" (load_dotenv w) in
  (∃ e, steps = [OpenDriver url user pwd (Raise e)] ∧ r = Raise e) ∨
  (∃ driver e,
     steps = [OpenDriver url user pwd (Return driver); OpenSession (Raise e)] ∧
     r = Raise e) ∨
  (∃ driver session rq values rc e,
     steps = [OpenDriver url user pwd (Return driver);
              OpenSession (Return session); RunQuery test_query rq]
             ++ (Printed <$> values) ++ [CloseSession rc] ∧
     r = Raise e) ∨
  (∃ driver session records rd,
     steps = [OpenDriver url user pwd (Return driver);
              OpenSession (Return session);
              RunQuery test_query (Return (records, None))]
             ++ (Printed <$> omap (λ record : Row, record !! "message") records)
             ++ [CloseSession (Return ()); CloseDriver rd] ∧
     Forall (λ record : Row, is_Some (record !! "message")) records ∧
     r = rd).
Proof.
  unfold script, test_connection, perform; simpl.
  destruct (graph_driver _ _ _ _) as [[driver|e0] w1]; simpl.
  2:{ left. by exists e0. }
  right.
  destruct (driver_session driver w1) as [[session|e1] w2]; simpl.
  2:{ left. by exists driver, e1. }
  right.
  destruct (session_run session test_query w2)
    as [[[records interrupted]|e2] w3]; simpl.
  2:{ left. destruct (session_close session w3) as [[[]|e3] w4]; simpl.
      - by exists driver, session, (Raise e2), [], (Return ()), e2.
      - by exists driver, session, (Raise e2), [], (Raise e3), e3. }
  destruct (print_messages_steps records
              (w3, [OpenDriver (getenv "DB_URI" (load_dotenv w))
                      (getenv "DB_USR" (load_dotenv w))
                      (getenv "DB_PWD" (load_dotenv w)) (Return driver);
                    OpenSession (Return session);
                    RunQuery test_query (Return (records, interrupted))]))
    as (values & Hsteps & Hend).
  destruct (print_messages records _) as [rp [w4 steps4]].
  simpl in Hsteps, Hend. injection Hsteps as -> ->.
  destruct Hend as [(-> & Hall & ->)|(-> & _)]; simpl.
  - destruct interrupted as [e|]; simpl.
    + left. destruct (session_close session w3) as [[[]|e3] w5]; simpl;
        rewrite <- ?app_assoc; simpl.
      * by eexists driver, session, _, _, (Return ()), e.
      * by eexists driver, session, _, _, (Raise e3), e3.
    + destruct (session_close session w3) as [[[]|e3] w5]; simpl.
      * right. destruct (driver_close driver w5) as [rd w6]; simpl.
        exists driver, session, records, rd.
        rewrite <- ?app_assoc. simpl. rewrite <- ?app_assoc. done.
      * left. rewrite <- ?app_assoc. simpl.
        by eexists driver, session, _, _, (Raise e3), e3.
  - left. destruct (session_close session w3) as [[[]|e3] w5]; simpl;
      rewrite <- ?app_assoc; simpl.
    + by eexists driver, session, _, _, (Return ()), _.
    + by eexists driver, session, _, _, (Raise e3), e3.
Qed.




(** The check prints the message of every record the query yields, in
    order; a script that returns has printed them all. *)
Theorem script_prints_the_messages (w : W) :
  (script w).1 = Return () →
  ∃ records,
    RunQuery test_query (Return (records, None)) ∈ (script w).2.2 ∧
    Forall (λ record : Row, is_Some (record !! "message")) records ∧
    printed (script w).2.2 = omap (λ record : Row, record !! "message") records.
Proof.
  destruct (script_shape w)
    as [(e & -> & ->)
       |[(driver & e & -> & ->)
        |[(driver & session & rq & values & rc & e & -> & ->)
         |(driver & session & records & rd & -> & Hall & ->)]]];
    try discriminate.
  intros ->. exists records. split; [present|]. split; [done|].
  unfold printed. rewrite !omap_app. simpl.
  rewrite app_nil_r. apply printed_of_printed.
Qed.

End CheckFacts.

Lemma script_prints_the_messages_witness :
  printed (script (gdb := GraphScenario.server) ∅).2.2 =
    [VStr "Connection successful!"].
Proof.
  destruct (script_prints_the_messages (gdb := GraphScenario.server) ∅)
    as (records & Hrun & _ & Hprinted); [vm_compute; reflexivity|].
  one_of Hrun. exact Hprinted.
Defined.

End Neo4jCheckFacts.
